(** * One-shot handwritten character classifier (src/main.py)

    A shallow embedding of [OneShotClassifier]: the point-set extractor
    [_load_image_points], the modified Hausdorff distance
    [_modified_hausdorff_distance], one classification run
    [_classification_run] and the experiment loop [run_experiments].

    Numbers.  numpy works on IEEE doubles.  Here pixel coordinates and
    distances are real numbers ([R]) and error rates are rationals ([Q]),
    that is, rounding is left out; the entries of a cost matrix are of any
    type with a zero and an order ([Np.Cost]), the reals for the classifier's
    own distance.  The one special value the program can really produce, the
    [nan] that [np.mean] gives for an empty list, is kept as a value of its
    own ([npfloat]).

    Effects.  A run calls the injected loader, prints, and raises; the
    embedding threads a log of events and a [result] through a small
    writer/exception monad. *)

From Stdlib Require Import List String Ascii Bool Arith ZArith QArith Lia.
From Stdlib Require Import DecimalString.
From Stdlib Require Import Reals Lra.
Import ListNotations.

Close Scope R_scope.
Close Scope Q_scope.
Open Scope string_scope.
Open Scope nat_scope.
Open Scope list_scope.

(** ** Python values: exceptions and results *)

Module Py.

Inductive exn : Type :=
| ValueError (msg : string)
| FileNotFoundError (msg : string)
| IndexError (msg : string)
| RuntimeError (msg : string) (cause : exn)
| OtherError (name msg : string).

(** [str(e)] *)
Definition str_exn (e : exn) : string :=
  match e with
  | ValueError m | FileNotFoundError m | IndexError m
  | RuntimeError m _ | OtherError _ m => m
  end.

Inductive result (A : Type) : Type :=
| Ok (a : A)
| Raise (e : exn).
Arguments Ok {A} a.
Arguments Raise {A} e.

Definition is_ok {A} (r : result A) : bool :=
  match r with Ok _ => true | Raise _ => false end.

(** A float that [np.mean] returns: a number, or [nan]. *)
Inductive npfloat : Type :=
| Fin (q : Q)
| NaN.

(** What a run does besides returning: calls of the injected loader and
    the lines it prints. *)
Inductive event : Type :=
| EvLoad (filename : string)
| EvBanner
| EvInfo (run : nat) (error_rate : Q)
| EvError (run : nat) (msg : string)
| EvResult (nrun : nat) (average : npfloat).

(** Writer over the event log, with exceptions. *)
Definition M (A : Type) : Type := (list event * result A)%type.

Definition ret {A} (a : A) : M A := ([], Ok a).
Definition raise {A} (e : exn) : M A := ([], Raise e).
Definition emit (ev : event) : M unit := ([ev], Ok tt).
Definition lift {A} (r : result A) : M A := ([], r).

Definition bind {A B} (m : M A) (k : A -> M B) : M B :=
  match m with
  | (log, Ok a) => let (log', r) := k a in (log ++ log', r)
  | (log, Raise e) => (log, Raise e)
  end.

(** [try: m except Exception as e: h e] *)
Definition try_except {A} (m : M A) (h : exn -> M A) : M A :=
  match m with
  | (log, Ok a) => (log, Ok a)
  | (log, Raise e) => let (log', r) := h e in (log ++ log', r)
  end.

Definition trace {A} (m : M A) : list event := fst m.
Definition outcome {A} (m : M A) : result A := snd m.

(** The loader calls among the events. *)
Definition loads (log : list event) : list string :=
  flat_map (fun ev => match ev with EvLoad f => [f] | _ => [] end) log.

Declare Scope py_scope.
Delimit Scope py_scope with py.
Notation "x <- m ;; k" := (bind m (fun x => k))
  (at level 61, m at next level, right associativity) : py_scope.
Notation "' pat <- m ;; k" := (bind m (fun x => match x with pat => k end))
  (at level 61, pat pattern, m at next level, right associativity) : py_scope.
Notation "m ;;; k" := (bind m (fun _ => k))
  (at level 61, right associativity) : py_scope.

(** [for x in xs: body x], with an accumulator. *)
Fixpoint for_each {A S} (xs : list A) (body : A -> S -> M S) (s : S) : M S :=
  match xs with
  | [] => ret s
  | x :: xs' => bind (body x s) (for_each xs' body)
  end.

(** [[f(x) for x in xs]] *)
Fixpoint comprehension {A B} (f : A -> M B) (xs : list A) : M (list B) :=
  match xs with
  | [] => ret []
  | x :: xs' => bind (f x) (fun y => bind (comprehension f xs') (fun ys => ret (y :: ys)))
  end.

(** *** Strings *)

(** Whitespace for [str.strip] and [str.split] on ASCII text. *)
Definition is_space (c : ascii) : bool :=
  let n := nat_of_ascii c in
  (((9 <=? n) && (n <=? 13)) || ((28 <=? n) && (n <=? 32)))%nat.

Fixpoint lstrip (s : string) : string :=
  match s with
  | String c rest => if is_space c then lstrip rest else s
  | EmptyString => EmptyString
  end.

Definition rev_string (s : string) : string :=
  string_of_list_ascii (rev (list_ascii_of_string s)).

Definition rstrip (s : string) : string := rev_string (lstrip (rev_string s)).

Definition strip (s : string) : string := rstrip (lstrip s).

(** [s.split()]: the maximal runs of non-whitespace; [cur] is the run being
    read. *)
Fixpoint split_from (cur : string) (s : string) : list string :=
  match s with
  | EmptyString => match cur with EmptyString => [] | _ => [cur] end
  | String c rest =>
      if is_space c
      then match cur with
           | EmptyString => split_from EmptyString rest
           | _ => cur :: split_from EmptyString rest
           end
      else split_from (cur ++ String c EmptyString)%string rest
  end.

Definition split (s : string) : list string := split_from EmptyString s.

(** [sorted(xs)] on strings: ascending in the order of the characters'
    codes, by stable insertion. *)
Fixpoint insert_sorted (x : string) (xs : list string) : list string :=
  match xs with
  | [] => [x]
  | y :: ys => if String.leb x y then x :: xs else y :: insert_sorted x ys
  end.

Definition sorted (xs : list string) : list string :=
  fold_right insert_sorted [] xs.

(** [os.path.join(a, b)] on POSIX paths. *)
Definition startswith_slash (s : string) : bool :=
  match s with String "/" _ => true | _ => false end.

Definition endswith_slash (s : string) : bool :=
  startswith_slash (rev_string s).

Definition path_join (a b : string) : string :=
  if startswith_slash b then b
  else match a with
       | EmptyString => b
       | _ => if endswith_slash a then (a ++ b)%string else (a ++ "/" ++ b)%string
       end.

(** [f"{n:02d}"] *)
Definition format_02d (n : nat) : string :=
  let s := NilEmpty.string_of_uint (Nat.to_uint n) in
  if (String.length s <? 2)%nat then ("0" ++ s)%string else s.

(** [zip] applied to the unpacked rows: the k-th tuple collects the k-th item of every row;
    as many tuples as the shortest row has items, none for no rows. *)
Definition min_length {A} (rows : list (list A)) : nat :=
  match rows with
  | [] => 0
  | r :: rs => fold_left (fun m r' => Nat.min m (List.length r')) rs (List.length r)
  end.

Definition zip_star (rows : list (list string)) : list (list string) :=
  map (fun k => map (fun r => nth k r EmptyString) rows)
      (seq 0 (min_length rows)).

(** [a, b = tuples] *)
Definition unpack2 {A} (tuples : list A) : result (A * A) :=
  match tuples with
  | [a; b] => Ok (a, b)
  | _ :: _ :: _ :: _ =>
      Raise (ValueError "too many values to unpack (expected 2)")
  | _ => Raise (ValueError "not enough values to unpack (expected 2)")
  end.

(** [xs[i]] *)
Definition index {A} (xs : list A) (i : nat) : result A :=
  match nth_error xs i with
  | Some x => Ok x
  | None => Raise (IndexError "index out of range")
  end.

End Py.

(** ** numpy and scipy operations the classifier uses *)

Module Np.
Import Py.

(** A two-dimensional array: its shape and its rows. *)
Record ndarray (A : Type) : Type := mk_ndarray {
  nrows : nat;
  ncols : nat;
  rows : list (list A)
}.
Arguments mk_ndarray {A} nrows ncols rows.
Arguments nrows {A} n.
Arguments ncols {A} n.
Arguments rows {A} n.

(** The rows agree with the shape. *)
Definition well_shaped {A} (M : ndarray A) : Prop :=
  List.length (rows M) = nrows M /\
  Forall (fun r => List.length r = ncols M) (rows M).

(** [xs] with position [i] replaced by [f] of its item. *)
Fixpoint update {A} (i : nat) (f : A -> A) (xs : list A) : list A :=
  match xs, i with
  | [], _ => []
  | x :: xs', O => f x :: xs'
  | x :: xs', S i' => x :: update i' f xs'
  end.

(** [M[i, j] = v] *)
Definition setitem {A} (M : ndarray A) (i j : nat) (v : A) : result (ndarray A) :=
  if (i <? nrows M) && (j <? ncols M)
  then Ok (mk_ndarray (nrows M) (ncols M)
                      (update i (update j (fun _ => v)) (rows M)))
  else Raise (IndexError "index is out of bounds").

(** *** Costs: the entries of the cost matrix

    What [np.argmin] and [np.argmax] need of the entries: a zero to fill
    [np.zeros] with, and the comparison [<] of numbers (a strict order whose
    incomparable items are the equal ones; [nan] is left out). *)
Class Cost (C : Type) : Type := {
  czero : C;
  clt : C -> C -> bool;
  clt_irrefl : forall a, clt a a = false;
  clt_trans : forall a b c, clt a b = true -> clt b c = true -> clt a c = true;
  clt_cotrans : forall a b c, clt a b = true -> clt a c = true \/ clt c b = true
}.

(** Equal as numbers. *)
Definition ceq {C} `{Cost C} (a b : C) : Prop :=
  clt a b = false /\ clt b a = false.

Definition zeros {C} `{Cost C} (n m : nat) : ndarray C :=
  mk_ndarray n m (repeat (repeat czero m) n).

Section Arg.
Context {C : Type} `{Cost C}.

(** The scan of [np.argmin]: keep the first item and its position, and move
    on to a later item only when it is strictly smaller. *)
Fixpoint argmin_from (best_i : nat) (best : C) (i : nat) (xs : list C) : nat :=
  match xs with
  | [] => best_i
  | x :: xs' =>
      if clt x best then argmin_from i x (S i) xs'
      else argmin_from best_i best (S i) xs'
  end.

Definition argmin (xs : list C) : result nat :=
  match xs with
  | [] => Raise (ValueError "attempt to get argmin of an empty sequence")
  | x :: xs' => Ok (argmin_from 0 x 1 xs')
  end.

(** The scan of [np.argmax]: move on only to a strictly larger item. *)
Fixpoint argmax_from (best_i : nat) (best : C) (i : nat) (xs : list C) : nat :=
  match xs with
  | [] => best_i
  | x :: xs' =>
      if clt best x then argmax_from i x (S i) xs'
      else argmax_from best_i best (S i) xs'
  end.

Definition argmax (xs : list C) : result nat :=
  match xs with
  | [] => Raise (ValueError "attempt to get argmax of an empty sequence")
  | x :: xs' => Ok (argmax_from 0 x 1 xs')
  end.

(** [np.argmin(M, axis=1)], [np.argmax(M, axis=1)]: one position per row. *)
Fixpoint each_row (f : list C -> result nat) (rs : list (list C)) : result (list nat) :=
  match rs with
  | [] => Ok []
  | r :: rs' =>
      match f r with
      | Raise e => Raise e
      | Ok j => match each_row f rs' with
                | Raise e => Raise e
                | Ok js => Ok (j :: js)
                end
      end
  end.

Definition argmin_axis1 (M : ndarray C) : result (list nat) := each_row argmin (rows M).
Definition argmax_axis1 (M : ndarray C) : result (list nat) := each_row argmax (rows M).

End Arg.

(** *** Error rates: rationals *)

Definition Qsum (xs : list Q) : Q := fold_right Qplus 0%Q xs.

(** [np.mean(xs)] of a list: [nan] (and a warning, no exception) when the
    list is empty. *)
Definition mean (xs : list Q) : npfloat :=
  match xs with
  | [] => NaN
  | _ => Fin (Qsum xs / inject_Z (Z.of_nat (List.length xs)))%Q
  end.

(** *** Pixels and points: reals *)

Definition point : Type := (R * R)%type.

(** [np.nonzero] of a boolean grid, as rows of (row, column), in row-major
    order: [np.array(np.nonzero(b)).T]. *)
Fixpoint nonzero_row (r : Z) (c : Z) (row : list bool) : list (Z * Z) :=
  match row with
  | [] => []
  | b :: row' =>
      if b then (r, c) :: nonzero_row r (c + 1)%Z row'
      else nonzero_row r (c + 1)%Z row'
  end.

Fixpoint nonzero_from (r : Z) (grid : list (list bool)) : list (Z * Z) :=
  match grid with
  | [] => []
  | row :: grid' => nonzero_row r 0%Z row ++ nonzero_from (r + 1)%Z grid'
  end.

Definition nonzero (grid : list (list bool)) : list (Z * Z) := nonzero_from 0%Z grid.

Definition Rsum (xs : list R) : R := fold_right Rplus 0%R xs.

(** [np.mean] of reals.  On no items numpy gives [nan]; here division is
    total, and the classifier never uses that value (see
    [_load_image_points] and [_modified_hausdorff_distance]). *)
Definition Rmean (xs : list R) : R := (Rsum xs / INR (List.length xs))%R.

(** [coords.mean(axis=0)]: the mean of each column. *)
Definition mean_axis0 (coords : list (Z * Z)) : point :=
  (Rmean (map (fun p => IZR (fst p)) coords),
   Rmean (map (fun p => IZR (snd p)) coords)).

(** [scipy.spatial.distance.cdist], Euclidean. *)
Definition euclidean (a b : point) : R :=
  sqrt ((fst a - fst b) * (fst a - fst b) + (snd a - snd b) * (snd a - snd b))%R.

Definition cdist (XA XB : list point) : ndarray R :=
  mk_ndarray (List.length XA) (List.length XB)
             (map (fun a => map (fun b => euclidean a b) XB) XA).

(** The least of a row that is not empty. *)
Definition least (xs : list R) : R :=
  match xs with
  | [] => 0%R
  | x :: xs' => fold_left Rmin xs' x
  end.

Definition column {A} (d : A) (j : nat) (rs : list (list A)) : list A :=
  map (fun r => nth j r d) rs.

Definition zero_size : exn :=
  ValueError "zero-size array to reduction operation minimum which has no identity".

(** [M.min(axis=1)]: the least of each row; fails when rows have no items. *)
Definition min_axis1 (M : ndarray R) : result (list R) :=
  if ncols M =? 0 then Raise zero_size
  else Ok (map least (rows M)).

(** [M.min(axis=0)]: the least of each column; fails when there is no row. *)
Definition min_axis0 (M : ndarray R) : result (list R) :=
  if nrows M =? 0 then Raise zero_size
  else Ok (map (fun j => least (column 0%R j (rows M))) (seq 0 (ncols M))).

(** Python's [max(x, y)]: [y] when [y > x], else [x]. *)
Definition py_max (x y : R) : R := if Rlt_dec x y then y else x.

#[export] Instance Cost_Q : Cost Q.
Proof.
  refine {| czero := 0%Q;
            clt := fun a b => match Qcompare a b with Lt => true | _ => false end |}.
  - intros a. now rewrite (proj1 (Qeq_alt a a) (Qeq_refl a)).
  - intros a b c Hab Hbc.
    destruct (Qcompare a b) eqn:E1; try discriminate.
    destruct (Qcompare b c) eqn:E2; try discriminate.
    apply Qlt_alt in E1, E2.
    now rewrite (proj1 (Qlt_alt a c) (Qlt_trans _ _ _ E1 E2)).
  - intros a b c Hab.
    destruct (Qcompare a b) eqn:E1; try discriminate.
    apply Qlt_alt in E1.
    destruct (Qlt_le_dec a c) as [L | L].
    + left. now rewrite (proj1 (Qlt_alt a c) L).
    + right. now rewrite (proj1 (Qlt_alt c b) (Qle_lt_trans _ _ _ L E1)).
Defined.

#[export] Instance Cost_R : Cost R.
Proof.
  refine {| czero := 0%R;
            clt := fun a b => if Rlt_dec a b then true else false |}.
  - intros a. destruct (Rlt_dec a a); [lra | reflexivity].
  - intros a b c Hab Hbc.
    destruct (Rlt_dec a b); try discriminate.
    destruct (Rlt_dec b c); try discriminate.
    destruct (Rlt_dec a c); [reflexivity | lra].
  - intros a b c Hab.
    destruct (Rlt_dec a b); try discriminate.
    destruct (Rlt_dec a c); [now left | right].
    destruct (Rlt_dec c b); [reflexivity | lra].
Defined.

End Np.

(** ** The classifier *)

Module OneShotClassifier.
Import Py Np.
Local Open Scope py_scope.

(** What the program reads from its surroundings: [os.path.exists],
    [os.path.isfile], [open(path).readlines()] and [iio.imread] (a
    two-dimensional grid of pixel values). *)
Record FileSystem : Type := {
  path_exists : string -> bool;
  path_isfile : string -> bool;
  readlines : string -> result (list string);
  imread : string -> result (list (list Z))
}.

(** The attributes of an instance. *)
Record t : Type := {
  nrun : nat;
  script_dir : string;
  all_runs_dir : string;
  label_filename : string
}.

(** [__init__]; [file_dir] is [os.path.dirname(os.path.realpath(__file__))]. *)
Definition __init__ (fs : FileSystem) (file_dir : string) (nrun0 : nat)
    (script_dir0 : option string) (all_runs_dir0 label_filename0 : string) : result t :=
  let self_script_dir := file_dir in
  let self_all_runs_dir := path_join self_script_dir all_runs_dir0 in
  match script_dir0 with
  | None =>
      Ok {| nrun := nrun0; script_dir := self_script_dir;
            all_runs_dir := self_all_runs_dir; label_filename := label_filename0 |}
  | Some d =>
      if negb (path_exists fs d)
      then Raise (ValueError ("Provided script directory '" ++ d ++ "' does not exist."))
      else Ok {| nrun := nrun0; script_dir := d;
                 all_runs_dir := self_all_runs_dir; label_filename := label_filename0 |}
  end.

(** *** [_load_image_points] *)

(** [np.array(image, dtype=np.bool_)] on one pixel. *)
Definition as_bool (v : Z) : bool := negb (v =? 0)%Z.

(** [~np.array(image, dtype=np.bool_)]: true at the pixels of value 0. *)
Definition bool_array (image : list (list Z)) : list (list bool) :=
  map (map (fun v => negb (as_bool v))) image.

(** [coords - coords.mean(axis=0)] *)
Definition centred (coords : list (Z * Z)) : list point :=
  let m := mean_axis0 coords in
  map (fun p => (IZR (fst p) - fst m, IZR (snd p) - snd m)%R) coords.

Definition _load_image_points (fs : FileSystem) (filename : string) : result (list point) :=
  match imread fs filename with
  | Raise e => Raise e
  | Ok image =>
      let coords := nonzero (bool_array image) in
      Ok (centred coords)
  end.

(** The image has a pixel of value 0 (a black one). *)
Definition has_foreground (image : list (list Z)) : bool :=
  existsb (existsb (fun v => (v =? 0)%Z)) image.

(** *** [_modified_hausdorff_distance] *)

Definition _modified_hausdorff_distance (itemA itemB : list point) : result R :=
  let distances := cdist itemA itemB in
  match min_axis1 distances with
  | Raise e => Raise e
  | Ok min_dist_A =>
      match min_axis0 distances with
      | Raise e => Raise e
      | Ok min_dist_B => Ok (py_max (Rmean min_dist_A) (Rmean min_dist_B))
      end
  end.

(** *** [_classification_run] *)

Section ClassificationRun.
Context {Img C : Type} `{Cost C}.
Variable fs : FileSystem.
Variable self : t.

(** A call of the injected loader, noted in the log. *)
Definition call_load (f_load : string -> result Img) (filename : string) : M Img :=
  emit (EvLoad filename) ;;; lift (f_load filename).

(** [enumerate(xs)] *)
Definition enumerate {A} (xs : list A) : list (nat * A) :=
  combine (seq 0 (List.length xs)) xs.

(** Lines 115-128: the two checks, then the label file read, split and
    unzipped into [test_files] and [train_answers]. *)
Definition run_dir (folder : string) : string :=
  path_join (all_runs_dir self) folder.

Definition labels_path (folder : string) : string :=
  path_join (run_dir folder) (label_filename self).

Definition read_labels (folder : string) : M (list string * list string) :=
  if negb (path_exists fs (run_dir folder))
  then raise (ValueError
                ("The folder " ++ folder ++ " does not exist in the runs directory."))
  else if negb (path_isfile fs (labels_path folder))
  then raise (FileNotFoundError ("Labels file " ++ labels_path folder ++ " not found."))
  else
    lines <- lift (readlines fs (labels_path folder)) ;;
    let pairs := map (fun line => split (strip line)) lines in
    lift (unpack2 (zip_star pairs)).

(** Lines 134-141: the images, loaded in the sorted order of their names. *)
Definition load_images (f_load : string -> result Img) (files : list string) : M (list Img) :=
  comprehension (fun f => call_load f_load (path_join (all_runs_dir self) f))
                (sorted files).

(** Lines 144-148: the matrix of zeros, filled entry by entry. *)
Definition fill_row (f_cost : Img -> Img -> result C) (i : nat) (test_img : Img)
    (train_images : list Img) (cost_matrix : ndarray C) : M (ndarray C) :=
  for_each (enumerate train_images)
           (fun '(j, train_img) cost_matrix =>
              v <- lift (f_cost test_img train_img) ;;
              lift (setitem cost_matrix i j v))
           cost_matrix.

Definition fill (f_cost : Img -> Img -> result C) (n_test n_train : nat)
    (test_images train_images : list Img) : M (ndarray C) :=
  for_each (enumerate test_images)
           (fun '(i, test_img) cost_matrix =>
              fill_row f_cost i test_img train_images cost_matrix)
           (zeros n_test n_train).

(** Lines 134-148 together. *)
Definition build_cost_matrix (f_load : string -> result Img)
    (f_cost : Img -> Img -> result C) (test_files train_answers : list string)
    : M (ndarray C) :=
  let n_test := List.length test_files in
  let n_train := List.length train_answers in
  test_images <- load_images f_load test_files ;;
  train_images <- load_images f_load train_answers ;;
  fill f_cost n_test n_train test_images train_images.

(** Lines 150-155: the best column of every row. *)
Definition select (ftype : string) (cost_matrix : ndarray C) : result (list nat) :=
  if (ftype =? "cost")%string then argmin_axis1 cost_matrix
  else if (ftype =? "score")%string then argmax_axis1 cost_matrix
  else Raise (ValueError "ftype must be 'cost' or 'score'").

(** Line 160: the test that counts query [i] as correctly predicted. *)
Definition judged_correct (train_answers : list string) (predicted_indices : list nat)
    (i : nat) : result bool :=
  match index train_answers i with
  | Raise e => Raise e
  | Ok answer =>
      match index predicted_indices i with
      | Raise e => Raise e
      | Ok p =>
          match index (sorted train_answers) p with
          | Raise e => Raise e
          | Ok label => Ok (answer =? label)%string
          end
      end
  end.

(** Lines 158-161: [sum(1 for i in range(n_test) if ...)]. *)
Definition count_correct (n_test : nat) (train_answers : list string)
    (predicted_indices : list nat) : M nat :=
  for_each (seq 0 n_test)
           (fun i total =>
              ok <- lift (judged_correct train_answers predicted_indices i) ;;
              ret (if ok then S total else total))
           0.

(** Line 163. *)
Definition error_rate (n_test correct_predictions : nat) : result Q :=
  if n_test =? 0 then Raise (OtherError "ZeroDivisionError" "division by zero")
  else Ok (inject_Z (Z.of_nat n_test - Z.of_nat correct_predictions)
           / inject_Z (Z.of_nat n_test) * 100)%Q.

Definition _classification_run (folder : string) (f_load : string -> result Img)
    (f_cost : Img -> Img -> result C) (ftype : string) : M Q :=
  '(test_files, train_answers) <- read_labels folder ;;
  let n_test := List.length test_files in
  try_except
    (cost_matrix <- build_cost_matrix f_load f_cost test_files train_answers ;;
     predicted_indices <- lift (select ftype cost_matrix) ;;
     correct_predictions <- count_correct n_test train_answers predicted_indices ;;
     lift (error_rate n_test correct_predictions))
    (fun e => raise (RuntimeError ("Error during classification run: " ++ str_exn e) e)).

(** The label the label file records for a query: the answer on the
    (first) line that names it. *)
Fixpoint recorded_label (test_files train_answers : list string) (query : string)
    : option string :=
  match test_files, train_answers with
  | q :: qs, a :: ans =>
      if (q =? query)%string then Some a else recorded_label qs ans query
  | _, _ => None
  end.

End ClassificationRun.

(** *** [run_experiments] *)

(** One pass of the loop body of lines 176-188. *)
Definition one_run (fs : FileSystem) (self : t) (run : nat) : M Q :=
  let folder_name := ("run" ++ format_02d run)%string in
  _classification_run fs self folder_name
    (_load_image_points fs) _modified_hausdorff_distance "cost".

Definition run_experiments (fs : FileSystem) (self : t) : M unit :=
  emit EvBanner ;;;
  error_rates <-
    for_each (seq 1 (nrun self))
             (fun run error_rates =>
                try_except
                  (error_rate <- one_run fs self run ;;
                   emit (EvInfo run error_rate) ;;;
                   ret (error_rates ++ [error_rate]))
                  (fun e => emit (EvError run (str_exn e)) ;;; ret error_rates))
             [] ;;
  let average_error := mean error_rates in
  emit (EvResult (nrun self) average_error).

(** What is printed: the log without the loader calls. *)
Definition prints (log : list event) : list event :=
  filter (fun ev => match ev with EvLoad _ => false | _ => true end) log.

End OneShotClassifier.

(** ** Statements *)

Import Py Np OneShotClassifier.

(** [u] is a least (greatest) entry of the row [r]: no entry is smaller
    (larger). *)
Definition minimal_in {C} `{Cost C} (r : list C) (u : C) : Prop :=
  forall k w, nth_error r k = Some w -> clt w u = false.

Definition maximal_in {C} `{Cost C} (r : list C) (u : C) : Prop :=
  forall k w, nth_error r k = Some w -> clt u w = false.

(** The error rates of the runs that returned, in order. *)
Definition successes (outcomes : list (result Q)) : list Q :=
  flat_map (fun r => match r with Ok q => [q] | Raise _ => [] end) outcomes.

(** The line [run_experiments] prints for a run, by its outcome. *)
Definition report_line (run : nat) (r : result Q) : event :=
  match r with
  | Ok q => EvInfo run q
  | Raise e => EvError run (str_exn e)
  end.

(** The outcomes of the runs 1 to [nrun], in order. *)
Definition outcomes (fs : FileSystem) (self : t) : list (result Q) :=
  map (fun run => outcome (one_run fs self run)) (seq 1 (nrun self)).

(** A computation that prints nothing. *)
Definition silent {A} (m : M A) : Prop := prints (trace m) = [].

(** The array has [n] rows of [m] entries each, and says so. *)
Definition has_shape {A} (n m : nat) (M : ndarray A) : Prop :=
  nrows M = n /\ ncols M = m /\ well_shaped M.

(** The number of distinct names in a list. *)
Definition count_distinct (xs : list string) : nat :=
  List.length (nodup string_dec xs).

(** ** The scans of [argmin] and [argmax] *)

Section Scan.
Context {C : Type} `{Cost C}.

Lemma clt_asym (a b : C) : clt a b = true -> clt b a = false.
Proof.
  intros Hab. destruct (clt b a) eqn:Hba; [|reflexivity].
  rewrite <- (clt_irrefl a). symmetry. exact (clt_trans _ _ _ Hab Hba).
Qed.

(** An item not below [b] is above whatever is below [b]. *)
Lemma clt_below (v b x : C) : clt v b = true -> clt x b = false -> clt v x = true.
Proof.
  intros Hvb Hxb. destruct (clt_cotrans _ _ x Hvb) as [E | E]; [exact E | congruence].
Qed.

(** Either the scan keeps the position it came with, and nothing it read
    was smaller; or it ends on an item it read, smaller than the one it came
    with, least of all it read and strictly below those read before it. *)
Lemma argmin_from_spec (xs : list C) :
  forall best_i best i,
    let j := argmin_from best_i best i xs in
    (j = best_i /\ Forall (fun x => clt x best = false) xs) \/
    (i <= j /\ exists v,
        nth_error xs (j - i) = Some v /\ clt v best = true /\
        minimal_in xs v /\
        forall k u, k < j - i -> nth_error xs k = Some u -> clt v u = true).
Proof.
  induction xs as [| x xs IH]; intros best_i best i; cbn zeta.
  - left. split; [reflexivity | constructor].
  - cbn [argmin_from]. destruct (clt x best) eqn:Hx.
    + right. specialize (IH i x (S i)). cbn zeta in IH.
      destruct IH as [[Hj Hall] | [Hle (v & Hv & Hlt & Hmin & Hfirst)]].
      * rewrite Hj. split; [lia |]. exists x. rewrite Nat.sub_diag.
        repeat split; [exact Hx | | intros k u Hk; lia].
        intros [| k] w Hw; cbn in Hw.
        -- injection Hw as <-. apply clt_irrefl.
        -- rewrite Forall_forall in Hall. apply Hall. eapply nth_error_In; eauto.
      * split; [lia |]. exists v.
        replace (argmin_from i x (S i) xs - i) with (S (argmin_from i x (S i) xs - S i)) by lia.
        repeat split.
        -- exact Hv.
        -- eapply clt_trans; eauto.
        -- intros [| k] w Hw; cbn in Hw.
           ++ injection Hw as <-. now apply clt_asym.
           ++ eapply Hmin; eauto.
        -- intros [| k] u Hk Hu; cbn in Hu.
           ++ injection Hu as <-. exact Hlt.
           ++ eapply Hfirst; eauto. lia.
    + specialize (IH best_i best (S i)). cbn zeta in IH.
      destruct IH as [[Hj Hall] | [Hle (v & Hv & Hlt & Hmin & Hfirst)]].
      * left. split; [exact Hj | constructor; assumption].
      * right. split; [lia |]. exists v.
        replace (argmin_from best_i best (S i) xs - i)
          with (S (argmin_from best_i best (S i) xs - S i)) by lia.
        assert (Hvx : clt v x = true) by (eapply clt_below; eauto).
        repeat split.
        -- exact Hv.
        -- exact Hlt.
        -- intros [| k] w Hw; cbn in Hw.
           ++ injection Hw as <-. now apply clt_asym.
           ++ eapply Hmin; eauto.
        -- intros [| k] u Hk Hu; cbn in Hu.
           ++ injection Hu as <-. exact Hvx.
           ++ eapply Hfirst; eauto. lia.
Qed.

Lemma argmax_from_spec (xs : list C) :
  forall best_i best i,
    let j := argmax_from best_i best i xs in
    (j = best_i /\ Forall (fun x => clt best x = false) xs) \/
    (i <= j /\ exists v,
        nth_error xs (j - i) = Some v /\ clt best v = true /\
        maximal_in xs v /\
        forall k u, k < j - i -> nth_error xs k = Some u -> clt u v = true).
Proof.
  induction xs as [| x xs IH]; intros best_i best i; cbn zeta.
  - left. split; [reflexivity | constructor].
  - cbn [argmax_from]. destruct (clt best x) eqn:Hx.
    + right. specialize (IH i x (S i)). cbn zeta in IH.
      destruct IH as [[Hj Hall] | [Hle (v & Hv & Hlt & Hmax & Hfirst)]].
      * rewrite Hj. split; [lia |]. exists x. rewrite Nat.sub_diag.
        repeat split; [exact Hx | | intros k u Hk; lia].
        intros [| k] w Hw; cbn in Hw.
        -- injection Hw as <-. apply clt_irrefl.
        -- rewrite Forall_forall in Hall. apply Hall. eapply nth_error_In; eauto.
      * split; [lia |]. exists v.
        replace (argmax_from i x (S i) xs - i) with (S (argmax_from i x (S i) xs - S i)) by lia.
        repeat split.
        -- exact Hv.
        -- eapply clt_trans; eauto.
        -- intros [| k] w Hw; cbn in Hw.
           ++ injection Hw as <-. now apply clt_asym.
           ++ eapply Hmax; eauto.
        -- intros [| k] u Hk Hu; cbn in Hu.
           ++ injection Hu as <-. exact Hlt.
           ++ eapply Hfirst; eauto. lia.
    + specialize (IH best_i best (S i)). cbn zeta in IH.
      destruct IH as [[Hj Hall] | [Hle (v & Hv & Hlt & Hmax & Hfirst)]].
      * left. split; [exact Hj | constructor; assumption].
      * right. split; [lia |]. exists v.
        replace (argmax_from best_i best (S i) xs - i)
          with (S (argmax_from best_i best (S i) xs - S i)) by lia.
        assert (Hxv : clt x v = true).
        { destruct (clt_cotrans _ _ x Hlt) as [E | E]; [congruence | exact E]. }
        repeat split.
        -- exact Hv.
        -- exact Hlt.
        -- intros [| k] w Hw; cbn in Hw.
           ++ injection Hw as <-. now apply clt_asym.
           ++ eapply Hmax; eauto.
        -- intros [| k] u Hk Hu; cbn in Hu.
           ++ injection Hu as <-. exact Hxv.
           ++ eapply Hfirst; eauto. lia.
Qed.

(** [np.argmin] of a row: a least entry, with only larger ones before it. *)
Lemma argmin_first (r : list C) (j : nat) :
  argmin r = Ok j ->
  exists v, nth_error r j = Some v /\ minimal_in r v /\
            forall k u, k < j -> nth_error r k = Some u -> clt v u = true.
Proof.
  destruct r as [| x xs]; [discriminate |]. cbn [argmin]. intros Hj. injection Hj as Hj.
  pose proof (argmin_from_spec xs 0 x 1) as S. cbn zeta in S. rewrite Hj in S.
  destruct S as [[-> Hall] | [Hle (v & Hv & Hlt & Hmin & Hfirst)]].
  - exists x. repeat split; [| intros k u Hk; lia].
    intros [| k] w Hw; cbn in Hw.
    + injection Hw as <-. apply clt_irrefl.
    + rewrite Forall_forall in Hall. apply Hall. eapply nth_error_In; eauto.
  - exists v. destruct j as [| j]; [lia |]. cbn [nth_error].
    replace (S j - 1) with j in * by lia. repeat split.
    + exact Hv.
    + intros [| k] w Hw; cbn in Hw.
      * injection Hw as <-. now apply clt_asym.
      * eapply Hmin; eauto.
    + intros [| k] u Hk Hu; cbn in Hu.
      * injection Hu as <-. exact Hlt.
      * eapply Hfirst; eauto. lia.
Qed.

Lemma argmax_first (r : list C) (j : nat) :
  argmax r = Ok j ->
  exists v, nth_error r j = Some v /\ maximal_in r v /\
            forall k u, k < j -> nth_error r k = Some u -> clt u v = true.
Proof.
  destruct r as [| x xs]; [discriminate |]. cbn [argmax]. intros Hj. injection Hj as Hj.
  pose proof (argmax_from_spec xs 0 x 1) as S. cbn zeta in S. rewrite Hj in S.
  destruct S as [[-> Hall] | [Hle (v & Hv & Hlt & Hmax & Hfirst)]].
  - exists x. repeat split; [| intros k u Hk; lia].
    intros [| k] w Hw; cbn in Hw.
    + injection Hw as <-. apply clt_irrefl.
    + rewrite Forall_forall in Hall. apply Hall. eapply nth_error_In; eauto.
  - exists v. destruct j as [| j]; [lia |]. cbn [nth_error].
    replace (S j - 1) with j in * by lia. repeat split.
    + exact Hv.
    + intros [| k] w Hw; cbn in Hw.
      * injection Hw as <-. now apply clt_asym.
      * eapply Hmax; eauto.
    + intros [| k] u Hk Hu; cbn in Hu.
      * injection Hu as <-. exact Hlt.
      * eapply Hfirst; eauto. lia.
Qed.

(** One position per row, each the scan's answer on its row. *)
Lemma each_row_nth (f : list C -> result nat) (rs : list (list C)) :
  forall js i r j,
    each_row f rs = Ok js ->
    nth_error rs i = Some r -> nth_error js i = Some j -> f r = Ok j.
Proof.
  induction rs as [| r0 rs IH]; intros js i r j Hjs Hr Hj.
  - destruct i; discriminate.
  - cbn [each_row] in Hjs. destruct (f r0) as [j0 | e] eqn:E0; [| discriminate].
    destruct (each_row f rs) as [js' | e] eqn:E1; [| discriminate].
    injection Hjs as <-. destruct i as [| i]; cbn in Hr, Hj.
    + injection Hr as <-. injection Hj as <-. exact E0.
    + eapply IH; eauto.
Qed.

Lemma each_row_length (f : list C -> result nat) (rs : list (list C)) :
  forall js, each_row f rs = Ok js -> List.length js = List.length rs.
Proof.
  induction rs as [| r0 rs IH]; intros js Hjs; cbn [each_row] in Hjs.
  - injection Hjs as <-. reflexivity.
  - destruct (f r0); [| discriminate]. destruct (each_row f rs); [| discriminate].
    injection Hjs as <-. cbn. f_equal. now apply IH.
Qed.

Lemma each_row_total (f : list C -> result nat) (rs : list (list C)) :
  Forall (fun r => is_ok (f r) = true) rs -> exists js, each_row f rs = Ok js.
Proof.
  induction 1 as [| r rs Hr _ [js IH]]; cbn [each_row].
  - now exists [].
  - destruct (f r) as [j |]; [| discriminate]. rewrite IH. now exists (j :: js).
Qed.

End Scan.

(** ** The monad *)

Section Monad.

Lemma bind_Ok {A B} (m : M A) (k : A -> M B) (log : list event) (b : B) :
  bind m k = (log, Ok b) ->
  exists l1 a l2, m = (l1, Ok a) /\ k a = (l2, Ok b) /\ log = l1 ++ l2.
Proof.
  destruct m as [l1 [a | e]]; cbn [bind]; [| discriminate].
  destruct (k a) as [l2 r] eqn:E. intros Heq. injection Heq as <- ->.
  now exists l1, a, l2.
Qed.

Lemma bind_eq {A B} (m : M A) (k : A -> M B) (l1 : list event) (a : A) :
  m = (l1, Ok a) -> bind m k = (l1 ++ fst (k a), snd (k a)).
Proof. intros ->. cbn [bind]. now destruct (k a). Qed.

Lemma bind_raise {A B} (m : M A) (k : A -> M B) (l1 : list event) (e : exn) :
  m = (l1, Raise e) -> bind m k = (l1, Raise e).
Proof. now intros ->. Qed.

(** A property of the accumulator that every pass keeps holds after the
    loop. *)
Lemma for_each_invariant {A S} (P : S -> Prop) (body : A -> S -> M S) (xs : list A) :
  (forall x s log s', In x xs -> P s -> body x s = (log, Ok s') -> P s') ->
  forall s log s', P s -> for_each xs body s = (log, Ok s') -> P s'.
Proof.
  induction xs as [| x xs IH]; intros Hbody s log s' Hs Hrun; cbn [for_each] in Hrun.
  - injection Hrun as _ <-. exact Hs.
  - apply bind_Ok in Hrun. destruct Hrun as (l1 & s1 & l2 & H1 & H2 & _).
    eapply IH; [| | exact H2].
    + intros. eapply Hbody; eauto. now right.
    + eapply Hbody; eauto. now left.
Qed.

(** If every pass returns and keeps the property, the loop returns. *)
Lemma for_each_total {A S} (P : S -> Prop) (body : A -> S -> M S) (xs : list A) :
  (forall x s, In x xs -> P s -> exists log s', body x s = (log, Ok s') /\ P s') ->
  forall s, P s -> exists log s', for_each xs body s = (log, Ok s') /\ P s'.
Proof.
  induction xs as [| x xs IH]; intros Hbody s Hs; cbn [for_each].
  - now exists [], s.
  - destruct (Hbody x s (or_introl eq_refl) Hs) as (l1 & s1 & H1 & Hs1).
    destruct (IH (fun y t Hy => Hbody y t (or_intror Hy)) s1 Hs1) as (l2 & s2 & H2 & Hs2).
    exists (l1 ++ l2), s2. split; [| exact Hs2].
    rewrite (bind_eq _ _ _ _ H1), H2. reflexivity.
Qed.

Lemma comprehension_length {A B} (f : A -> M B) (xs : list A) :
  forall log ys, comprehension f xs = (log, Ok ys) -> List.length ys = List.length xs.
Proof.
  induction xs as [| x xs IH]; intros log ys Hrun; cbn [comprehension] in Hrun.
  - injection Hrun as _ <-. reflexivity.
  - apply bind_Ok in Hrun. destruct Hrun as (l1 & y & l2 & _ & H2 & _).
    apply bind_Ok in H2. destruct H2 as (l3 & ys' & l4 & H3 & H4 & _).
    injection H4 as _ <-. cbn. f_equal. eapply IH; eauto.
Qed.

Lemma comprehension_total {A B} (f : A -> M B) (xs : list A) :
  (forall x, In x xs -> is_ok (snd (f x)) = true) ->
  exists log ys, comprehension f xs = (log, Ok ys).
Proof.
  induction xs as [| x xs IH]; intros Hf; cbn [comprehension].
  - now exists [], [].
  - destruct (f x) as [l1 [y | e]] eqn:E.
    + destruct IH as (l2 & ys & H2); [intros; apply Hf; now right |].
      exists (l1 ++ (l2 ++ [])), (y :: ys). cbn [bind]. rewrite H2. reflexivity.
    + specialize (Hf x (or_introl eq_refl)). rewrite E in Hf. discriminate.
Qed.

End Monad.

(** ** Lists and strings *)

Section Lists.

Lemma insert_sorted_length (x : string) (xs : list string) :
  List.length (insert_sorted x xs) = S (List.length xs).
Proof.
  induction xs as [| y ys IH]; cbn; [reflexivity |].
  destruct (String.leb x y); cbn; [reflexivity | now rewrite IH].
Qed.

Lemma sorted_length (xs : list string) : List.length (sorted xs) = List.length xs.
Proof.
  induction xs as [| x xs IH]; [reflexivity |].
  change (sorted (x :: xs)) with (insert_sorted x (sorted xs)).
  rewrite insert_sorted_length, IH. reflexivity.
Qed.

Lemma enumerate_bound {A} (xs : list A) (i : nat) (x : A) :
  In (i, x) (enumerate xs) -> i < List.length xs.
Proof.
  unfold enumerate. intros Hin. apply in_combine_l in Hin.
  apply in_seq in Hin. lia.
Qed.

Lemma update_length {A} (f : A -> A) (xs : list A) :
  forall i, List.length (update i f xs) = List.length xs.
Proof.
  induction xs as [| x xs IH]; intros [| i]; cbn; auto.
Qed.

Lemma update_Forall {A} (P : A -> Prop) (f : A -> A) (xs : list A) :
  (forall x, P x -> P (f x)) -> Forall P xs -> forall i, Forall P (update i f xs).
Proof.
  intros Hf. induction 1 as [| x xs Hx Hxs IH]; intros [| i]; cbn; auto.
Qed.

(** The tuples of [zip_star] are as long as the list of rows. *)
Lemma zip_star_lengths (rows : list (list string)) :
  Forall (fun tuple => List.length tuple = List.length rows) (zip_star rows).
Proof.
  unfold zip_star. apply Forall_forall. intros tuple Hin.
  apply in_map_iff in Hin. destruct Hin as (k & <- & _). apply length_map.
Qed.

Lemma unpack2_lengths (rows : list (list string)) (test_files train_answers : list string) :
  unpack2 (zip_star rows) = Ok (test_files, train_answers) ->
  List.length test_files = List.length rows /\
  List.length train_answers = List.length rows.
Proof.
  pose proof (zip_star_lengths rows) as Hall.
  destruct (zip_star rows) as [| a [| b [| c rest]]]; cbn [unpack2]; try discriminate.
  intros Heq. injection Heq as <- <-.
  inversion Hall as [| ? ? Ha Hall']. inversion Hall' as [| ? ? Hb _]. now split.
Qed.

(** Two tuples need a row to take them from. *)
Lemma unpack2_nonempty (test_files train_answers : list string) :
  unpack2 (zip_star []) <> Ok (test_files, train_answers).
Proof. discriminate. Qed.

End Lists.

(** ** The cost matrix *)

Section CostMatrix.
Context {Img C : Type} `{Cost C}.
Variable self : t.
Variable f_load : string -> result Img.
Variable f_cost : Img -> Img -> result C.

Lemma zeros_shape (n m : nat) : has_shape n m (zeros (C := C) n m).
Proof.
  unfold has_shape, well_shaped, zeros; cbn. repeat split.
  - apply repeat_length.
  - apply Forall_forall. intros r Hr. apply repeat_spec in Hr. subst r.
    apply repeat_length.
Qed.

Lemma setitem_shape (n m i j : nat) (v : C) (M M' : ndarray C) :
  has_shape n m M -> setitem M i j v = Ok M' -> has_shape n m M'.
Proof.
  intros (Hn & Hm & Hlen & Hrows). unfold setitem.
  destruct ((i <? nrows M) && (j <? ncols M)); [| discriminate].
  intros Heq. injection Heq as <-. unfold has_shape, well_shaped; cbn.
  repeat split; try assumption.
  - now rewrite update_length.
  - apply update_Forall; [| exact Hrows].
    intros r Hr. now rewrite update_length.
Qed.

Lemma setitem_total (n m i j : nat) (v : C) (M : ndarray C) :
  has_shape n m M -> i < n -> j < m -> exists M', setitem M i j v = Ok M'.
Proof.
  intros (Hn & Hm & _) Hi Hj. unfold setitem.
  apply Nat.ltb_lt in Hi, Hj. rewrite Hn, Hm, Hi, Hj. cbn. eauto.
Qed.

Lemma fill_row_shape (n m i : nat) (test_img : Img) (train_images : list Img) :
  forall M log M',
    has_shape n m M ->
    fill_row f_cost i test_img train_images M = (log, Ok M') -> has_shape n m M'.
Proof.
  unfold fill_row. apply for_each_invariant.
  intros [j train_img] M log M' _ HM Hbody.
  apply bind_Ok in Hbody. destruct Hbody as (l1 & v & l2 & _ & Hset & _).
  unfold lift in Hset. injection Hset as _ Hset. eapply setitem_shape; eauto.
Qed.

Lemma fill_shape (n m : nat) (test_images train_images : list Img) :
  forall log M,
    fill f_cost n m test_images train_images = (log, Ok M) -> has_shape n m M.
Proof.
  unfold fill. intros log M. apply for_each_invariant; [| apply zeros_shape].
  intros [i test_img] M0 log0 M1 _ HM Hbody. eapply fill_row_shape; eauto.
Qed.

Lemma fill_row_total (n m i : nat) (test_img : Img) (train_images : list Img) :
  (forall a b, is_ok (f_cost a b) = true) ->
  i < n -> List.length train_images = m ->
  forall M, has_shape n m M ->
    exists log M', fill_row f_cost i test_img train_images M = (log, Ok M') /\
                   has_shape n m M'.
Proof.
  intros Hcost Hi Hlen. unfold fill_row. apply for_each_total.
  intros [j train_img] M Hin HM. apply enumerate_bound in Hin.
  specialize (Hcost test_img train_img).
  destruct (f_cost test_img train_img) as [v | e] eqn:E; [| discriminate].
  destruct (setitem_total n m i j v M HM Hi) as [M' HM']; [lia |].
  exists [], M'. split; [| eapply setitem_shape; eauto].
  unfold lift. cbn [bind]. rewrite HM'. reflexivity.
Qed.

Lemma fill_total (n m : nat) (test_images train_images : list Img) :
  (forall a b, is_ok (f_cost a b) = true) ->
  List.length test_images = n -> List.length train_images = m ->
  exists log M, fill f_cost n m test_images train_images = (log, Ok M).
Proof.
  intros Hcost Hn Hm. unfold fill.
  destruct (for_each_total (has_shape n m)
              (fun '(i, test_img) cost_matrix =>
                 fill_row f_cost i test_img train_images cost_matrix)
              (enumerate test_images)) with (s := zeros (C := C) n m)
    as (log & M & Hrun & _).
  - intros [i test_img] M Hin HM. apply enumerate_bound in Hin.
    apply fill_row_total; auto. lia.
  - apply zeros_shape.
  - eauto.
Qed.

Lemma load_images_length (files : list string) (log : list event) (images : list Img) :
  load_images self f_load files = (log, Ok images) ->
  List.length images = List.length files.
Proof.
  unfold load_images. intros Hrun. apply comprehension_length in Hrun.
  now rewrite sorted_length in Hrun.
Qed.

Lemma load_images_total (files : list string) :
  (forall f, is_ok (f_load f) = true) ->
  exists log images, load_images self f_load files = (log, Ok images).
Proof.
  intros Hload. apply comprehension_total. intros f _.
  unfold call_load, emit, lift. cbn [bind].
  specialize (Hload (path_join (all_runs_dir self) f)).
  now destruct (f_load (path_join (all_runs_dir self) f)).
Qed.

(** Whenever the matrix is built, it has one row per line of the label
    file and one column per line. *)
Lemma build_cost_matrix_shape (test_files train_answers : list string)
    (log : list event) (M : ndarray C) :
  build_cost_matrix self f_load f_cost test_files train_answers = (log, Ok M) ->
  has_shape (List.length test_files) (List.length train_answers) M.
Proof.
  unfold build_cost_matrix. intros Hrun.
  apply bind_Ok in Hrun. destruct Hrun as (l1 & tests & l2 & _ & Hrun & _).
  apply bind_Ok in Hrun. destruct Hrun as (l3 & trains & l4 & _ & Hrun & _).
  eapply fill_shape; eauto.
Qed.

(** With a loader and a cost that return, the matrix is built. *)
Lemma build_cost_matrix_total (test_files train_answers : list string) :
  (forall f, is_ok (f_load f) = true) ->
  (forall a b, is_ok (f_cost a b) = true) ->
  exists log M,
    build_cost_matrix self f_load f_cost test_files train_answers = (log, Ok M).
Proof.
  intros Hload Hcost. unfold build_cost_matrix.
  destruct (load_images_total test_files Hload) as (l1 & tests & H1).
  destruct (load_images_total train_answers Hload) as (l2 & trains & H2).
  destruct (fill_total (List.length test_files) (List.length train_answers)
              tests trains Hcost) as (l3 & M & H3).
  - eapply load_images_length; eauto.
  - eapply load_images_length; eauto.
  - exists (l1 ++ (l2 ++ l3)), M.
    rewrite (bind_eq _ _ _ _ H1). rewrite (bind_eq _ _ _ _ H2). rewrite H3. reflexivity.
Qed.

End CostMatrix.

(** ** The label file *)

Section Labels.
Variable fs : FileSystem.
Variable self : t.

Lemma min_length_const {A} (n : nat) (rows : list (list A)) :
  rows <> [] -> Forall (fun r => List.length r = n) rows -> min_length rows = n.
Proof.
  destruct rows as [| r rs]; [congruence |]. intros _ Hall.
  inversion Hall as [| ? ? Hr Hrs]; subst. cbn [min_length].
  clear Hall. induction Hrs as [| r' rs Hr' _ IH]; cbn [fold_left]; [reflexivity |].
  rewrite Hr', Nat.min_id. exact IH.
Qed.

Lemma zip_star_pairs (rows : list (list string)) :
  rows <> [] -> Forall (fun r => List.length r = 2) rows ->
  unpack2 (zip_star rows) =
  Ok (map (fun r => nth 0 r EmptyString) rows, map (fun r => nth 1 r EmptyString) rows).
Proof.
  intros Hne Hall. unfold zip_star. now rewrite (min_length_const 2 rows Hne Hall).
Qed.

(** What [read_labels] has seen when it returns. *)
Lemma read_labels_Ok (folder : string) (log : list event)
    (test_files train_answers : list string) :
  read_labels fs self folder = (log, Ok (test_files, train_answers)) ->
  log = [] /\
  path_exists fs (run_dir self folder) = true /\
  path_isfile fs (labels_path self folder) = true /\
  exists lines,
    readlines fs (labels_path self folder) = Ok lines /\
    unpack2 (zip_star (map (fun line => split (strip line)) lines))
    = Ok (test_files, train_answers).
Proof.
  unfold read_labels.
  destruct (path_exists fs (run_dir self folder)); cbn [negb]; [| discriminate].
  destruct (path_isfile fs (labels_path self folder)); cbn [negb]; [| discriminate].
  destruct (readlines fs (labels_path self folder)) as [lines | e]; cbn; [| discriminate].
  intros Heq. injection Heq as <- Heq. repeat split; eauto.
Qed.

Lemma read_labels_lengths (folder : string) (log : list event)
    (test_files train_answers : list string) :
  read_labels fs self folder = (log, Ok (test_files, train_answers)) ->
  List.length test_files = List.length train_answers /\ 0 < List.length test_files.
Proof.
  intros Hrun. apply read_labels_Ok in Hrun.
  destruct Hrun as (_ & _ & _ & lines & _ & Hun).
  destruct lines as [| line lines]; [discriminate |].
  apply unpack2_lengths in Hun. rewrite length_map in Hun. cbn in Hun. lia.
Qed.

(** [read_labels] never calls the loader. *)
Lemma read_labels_trace (folder : string) : trace (read_labels fs self folder) = [].
Proof.
  unfold read_labels.
  destruct (path_exists fs (run_dir self folder)); cbn [negb]; [| reflexivity].
  destruct (path_isfile fs (labels_path self folder)); cbn [negb]; [| reflexivity].
  destruct (readlines fs (labels_path self folder)) as [lines | e]; reflexivity.
Qed.

End Labels.

Section Distinct.

Lemma nodup_length_le (xs : list string) :
  List.length (nodup string_dec xs) <= List.length xs.
Proof.
  induction xs as [| x xs IH]; cbn; [lia |].
  destruct (in_dec string_dec x xs); cbn; lia.
Qed.

(** As many distinct names as names exactly when no name repeats. *)
Lemma count_distinct_full (xs : list string) :
  count_distinct xs = List.length xs <-> NoDup xs.
Proof.
  unfold count_distinct. split.
  - induction xs as [| x xs IH]; cbn; [constructor |].
    pose proof (nodup_length_le xs).
    destruct (in_dec string_dec x xs); cbn; intros Hlen; [lia |].
    constructor; [assumption | apply IH; lia].
  - intros Hnd. now rewrite nodup_fixed_point.
Qed.

End Distinct.

(** ** What a run prints *)

Section Silent.

Lemma prints_app (l1 l2 : list event) : prints (l1 ++ l2) = prints l1 ++ prints l2.
Proof. apply filter_app. Qed.

Lemma silent_ret {A} (a : A) : silent (ret a).
Proof. reflexivity. Qed.

Lemma silent_lift {A} (r : result A) : silent (lift r).
Proof. reflexivity. Qed.

Lemma silent_raise {A} (e : exn) : silent (raise (A := A) e).
Proof. reflexivity. Qed.

Lemma silent_bind {A B} (m : M A) (k : A -> M B) :
  silent m -> (forall a, silent (k a)) -> silent (bind m k).
Proof.
  unfold silent, trace. destruct m as [l1 [a | e]]; cbn [bind fst]; intros Hm Hk; [| exact Hm].
  specialize (Hk a). destruct (k a) as [l2 r]. cbn [fst] in *.
  now rewrite prints_app, Hm, Hk.
Qed.

Lemma silent_try_except {A} (m : M A) (h : exn -> M A) :
  silent m -> (forall e, silent (h e)) -> silent (try_except m h).
Proof.
  unfold silent, trace. destruct m as [l1 [a | e]]; cbn [try_except fst]; intros Hm Hh;
    [exact Hm |].
  specialize (Hh e). destruct (h e) as [l2 r]. cbn [fst] in *.
  now rewrite prints_app, Hm, Hh.
Qed.

Lemma silent_for_each {A S} (body : A -> S -> M S) (xs : list A) :
  (forall x s, silent (body x s)) -> forall s, silent (for_each xs body s).
Proof.
  intros Hbody. induction xs as [| x xs IH]; intros s; cbn [for_each].
  - apply silent_ret.
  - apply silent_bind; auto.
Qed.

Lemma silent_comprehension {A B} (f : A -> M B) (xs : list A) :
  (forall x, silent (f x)) -> silent (comprehension f xs).
Proof.
  intros Hf. induction xs as [| x xs IH]; cbn [comprehension].
  - apply silent_ret.
  - apply silent_bind; [apply Hf |]. intros y.
    apply silent_bind; [exact IH |]. intros ys. apply silent_ret.
Qed.

(** A classification run prints nothing: its only events are loader calls. *)
Lemma silent_classification_run {Img C} `{Cost C} (fs : FileSystem) (self : t)
    (folder : string) (f_load : string -> result Img)
    (f_cost : Img -> Img -> result C) (ftype : string) :
  silent (_classification_run fs self folder f_load f_cost ftype).
Proof.
  unfold _classification_run. apply silent_bind.
  - unfold silent. now rewrite read_labels_trace.
  - intros [test_files train_answers]. apply silent_try_except.
    + apply silent_bind.
      * unfold build_cost_matrix.
        assert (Hload : forall files, silent (load_images self f_load files)).
        { intros files. apply silent_comprehension. intros f. unfold call_load.
          apply silent_bind; [reflexivity | intros; apply silent_lift]. }
        apply silent_bind; [apply Hload | intros tests].
        apply silent_bind; [apply Hload | intros trains].
        apply silent_for_each. intros [i test_img] M0.
        apply silent_for_each. intros [j train_img] M1.
        apply silent_bind; [apply silent_lift | intros; apply silent_lift].
      * intros M0. apply silent_bind; [apply silent_lift | intros js].
        apply silent_bind; [| intros; apply silent_lift].
        apply silent_for_each. intros i total.
        apply silent_bind; [apply silent_lift | intros; apply silent_ret].
    + intros e. apply silent_raise.
Qed.

End Silent.

(** ** The experiment loop *)

Section Loop.
Variable fs : FileSystem.
Variable self : t.

(** One pass: the run's events, then its line; a returned rate joins the
    list, a failure leaves the list as it was. *)
Lemma loop_pass (run : nat) (error_rates : list Q) :
  try_except
    (bind (one_run fs self run) (fun error_rate =>
       bind (emit (EvInfo run error_rate)) (fun _ => ret (error_rates ++ [error_rate]))))
    (fun e => bind (emit (EvError run (str_exn e))) (fun _ => ret error_rates))
  = (trace (one_run fs self run) ++ [report_line run (outcome (one_run fs self run))],
     Ok (error_rates ++ successes [outcome (one_run fs self run)])).
Proof.
  destruct (one_run fs self run) as [log [q | e]]; cbn.
  - reflexivity.
  - now rewrite app_nil_r.
Qed.

Lemma loop_spec (runs : list nat) :
  forall error_rates,
    for_each runs
      (fun run error_rates =>
         try_except
           (bind (one_run fs self run) (fun error_rate =>
              bind (emit (EvInfo run error_rate))
                   (fun _ => ret (error_rates ++ [error_rate]))))
           (fun e => bind (emit (EvError run (str_exn e))) (fun _ => ret error_rates)))
      error_rates
    = (flat_map (fun run => trace (one_run fs self run)
                            ++ [report_line run (outcome (one_run fs self run))]) runs,
       Ok (error_rates
           ++ successes (map (fun run => outcome (one_run fs self run)) runs))).
Proof.
  induction runs as [| run runs IH]; intros error_rates; cbn [for_each].
  - cbn. now rewrite app_nil_r.
  - rewrite loop_pass. cbn [bind]. rewrite IH. cbn [map flat_map].
    f_equal. f_equal. rewrite <- app_assoc. f_equal.
    unfold successes. cbn [flat_map]. now rewrite app_nil_r.
Qed.

Lemma prints_loop (runs : list nat) :
  prints (flat_map (fun run => trace (one_run fs self run)
                               ++ [report_line run (outcome (one_run fs self run))]) runs)
  = map (fun run => report_line run (outcome (one_run fs self run))) runs.
Proof.
  induction runs as [| run runs IH]; [reflexivity |].
  cbn [flat_map map]. rewrite !prints_app, IH.
  pose proof (silent_classification_run fs self ("run" ++ format_02d run)%string
                (_load_image_points fs) _modified_hausdorff_distance "cost") as Hs.
  unfold silent in Hs. unfold one_run at 1. rewrite Hs.
  now destruct (outcome (one_run fs self run)).
Qed.

(** The whole of [run_experiments]: it returns, having printed the banner,
    one line per run and the mean of the rates of the runs that returned. *)
Lemma run_experiments_report :
  outcome (run_experiments fs self) = Ok tt /\
  prints (trace (run_experiments fs self))
  = EvBanner
    :: map (fun run => report_line run (outcome (one_run fs self run)))
           (seq 1 (nrun self))
    ++ [EvResult (nrun self) (mean (successes (outcomes fs self)))].
Proof.
  unfold run_experiments. rewrite loop_spec. unfold emit. cbn [bind app].
  unfold outcome, trace. cbn [fst snd]. split; [reflexivity |].
  change (EvBanner :: ?l) with ([EvBanner] ++ l).
  rewrite !prints_app, prints_loop. reflexivity.
Qed.

End Loop.

(** ** The distance *)

Section Distance.
Local Open Scope R_scope.

Lemma euclidean_sym (a b : point) : euclidean a b = euclidean b a.
Proof. unfold euclidean. f_equal. ring. Qed.

Lemma py_max_comm (x y : R) : py_max x y = py_max y x.
Proof. unfold py_max. destruct (Rlt_dec x y), (Rlt_dec y x); lra. Qed.

(** The least of each row of [cdist XA XB]: for each point of [XA], its
    least distance to [XB]. *)
Lemma row_minima (XA XB : list point) :
  map least (rows (cdist XA XB))
  = map (fun a => least (map (fun b => euclidean a b) XB)) XA.
Proof. cbn [cdist rows]. now rewrite map_map. Qed.

(** Column [j] of a table given by rows [f a] over [XB], one row per [a]. *)
Lemma column_minima {A B : Type} (f : A -> B -> R) (F : list R -> R) (XA : list A) :
  forall XB : list B,
    map (fun j => F (column 0 j (map (fun a => map (f a) XB) XA)))
        (seq 0 (List.length XB))
    = map (fun b => F (map (fun a => f a b) XA)) XB.
Proof.
  induction XB as [| b XB IH]; [reflexivity |].
  cbn [List.length seq map]. f_equal.
  - unfold column. now rewrite map_map.
  - rewrite <- seq_shift, map_map, <- IH. apply map_ext. intros j.
    unfold column. now rewrite !map_map.
Qed.

Lemma distance_nonempty (itemA itemB : list point) :
  itemA <> [] -> itemB <> [] ->
  _modified_hausdorff_distance itemA itemB
  = Ok (py_max
          (Rmean (map (fun a => least (map (fun b => euclidean a b) itemB)) itemA))
          (Rmean (map (fun b => least (map (fun a => euclidean a b) itemA)) itemB))).
Proof.
  intros HA HB. unfold _modified_hausdorff_distance, min_axis1, min_axis0.
  cbn [cdist nrows ncols rows].
  assert (EA : (List.length itemA =? 0)%nat = false)
    by (destruct itemA; [congruence | reflexivity]).
  assert (EB : (List.length itemB =? 0)%nat = false)
    by (destruct itemB; [congruence | reflexivity]).
  rewrite EA, EB. f_equal. f_equal; f_equal.
  - apply map_map.
  - apply (column_minima euclidean least).
Qed.

(** With a side empty, a reduction has nothing to reduce and fails. *)
Lemma distance_empty (itemA itemB : list point) :
  itemA = [] \/ itemB = [] ->
  _modified_hausdorff_distance itemA itemB = Raise zero_size.
Proof.
  unfold _modified_hausdorff_distance, min_axis1, min_axis0. cbn [cdist nrows ncols].
  intros [-> | ->].
  - destruct itemB; reflexivity.
  - reflexivity.
Qed.

End Distance.

(** ** The point sets *)

Section Points.
Local Open Scope R_scope.

Lemma Rsum_shift (c : R) (xs : list R) :
  Rsum (map (fun x => x - c) xs) = Rsum xs - INR (List.length xs) * c.
Proof.
  induction xs as [| x xs IH].
  - cbn. ring.
  - cbn [map Rsum fold_right List.length]. fold (Rsum (map (fun x => x - c) xs)).
    fold (Rsum xs). rewrite IH, S_INR. ring.
Qed.

(** Taking the mean away from every item leaves items of mean 0. *)
Lemma Rmean_centred (xs : list R) :
  xs <> [] -> Rmean (map (fun x => x - Rmean xs) xs) = 0.
Proof.
  intros Hne. unfold Rmean at 1. rewrite Rsum_shift, length_map. unfold Rmean.
  assert (Hn : INR (List.length xs) <> 0).
  { apply not_0_INR. destruct xs; [congruence | discriminate]. }
  field. exact Hn.
Qed.

Lemma centred_rows (coords : list (Z * Z)) :
  map fst (centred coords)
  = map (fun x => x - Rmean (map (fun p => IZR (fst p)) coords))
        (map (fun p => IZR (fst p)) coords).
Proof. unfold centred. rewrite !map_map. reflexivity. Qed.

Lemma centred_columns (coords : list (Z * Z)) :
  map snd (centred coords)
  = map (fun x => x - Rmean (map (fun p => IZR (snd p)) coords))
        (map (fun p => IZR (snd p)) coords).
Proof. unfold centred. rewrite !map_map. reflexivity. Qed.

(** The centroid of a centred point set that is not empty is the origin. *)
Lemma centred_centroid (coords : list (Z * Z)) :
  coords <> [] ->
  Rmean (map fst (centred coords)) = 0 /\ Rmean (map snd (centred coords)) = 0.
Proof.
  intros Hne. rewrite centred_rows, centred_columns.
  split; apply Rmean_centred; destruct coords; cbn; congruence.
Qed.

Lemma nonzero_row_foreground (row : list Z) :
  forall r c,
    nonzero_row r c (map (fun v => negb (as_bool v)) row) = []
    <-> existsb (fun v => (v =? 0)%Z) row = false.
Proof.
  induction row as [| v row IH]; intros r c; cbn [map nonzero_row existsb].
  - tauto.
  - unfold as_bool at 1. destruct (v =? 0)%Z; cbn [negb orb].
    + split; discriminate.
    + apply IH.
Qed.

Lemma nonzero_from_foreground (image : list (list Z)) :
  forall r, nonzero_from r (bool_array image) = [] <-> has_foreground image = false.
Proof.
  induction image as [| row image IH]; intros r.
  - cbn. tauto.
  - change (bool_array (row :: image))
      with (map (fun v => negb (as_bool v)) row :: bool_array image).
    cbn [nonzero_from]. change (has_foreground (row :: image))
      with (existsb (fun v => (v =? 0)%Z) row || has_foreground image)%bool.
    rewrite orb_false_iff, <- IH, <- nonzero_row_foreground. split.
    + intros Happ. apply app_eq_nil in Happ. exact Happ.
    + intros [-> ->]. reflexivity.
Qed.

(** The extractor finds a point exactly when the image has a black pixel. *)
Lemma nonzero_foreground (image : list (list Z)) :
  nonzero (bool_array image) = [] <-> has_foreground image = false.
Proof. apply nonzero_from_foreground. Qed.

End Points.

(** ** The judgement of a prediction *)

Section Judgement.

(** In a label file that names no query twice, the label recorded for the
    query of line [i] is the answer of line [i]. *)
Lemma recorded_label_nth (test_files : list string) :
  forall train_answers i query,
    NoDup test_files ->
    List.length test_files = List.length train_answers ->
    nth_error test_files i = Some query ->
    recorded_label test_files train_answers query = nth_error train_answers i.
Proof.
  induction test_files as [| q qs IH]; intros [| a ans] [| i] query Hnd Hlen Hq;
    cbn in Hlen, Hq; try congruence.
  - injection Hq as ->. cbn. rewrite String.eqb_refl. reflexivity.
  - inversion Hnd as [| ? ? Hnotin Hnd']; subst.
    cbn [recorded_label nth_error].
    destruct (String.eqb_spec q query) as [-> | _].
    + exfalso. apply Hnotin. eapply nth_error_In; eauto.
    + apply IH; auto.
Qed.

(** What line 160 tests, read off the code. *)
Lemma judged_correct_spec (train_answers : list string) (predicted_indices : list nat)
    (i : nat) (b : bool) :
  judged_correct train_answers predicted_indices i = Ok b ->
  exists answer p label,
    nth_error train_answers i = Some answer /\
    nth_error predicted_indices i = Some p /\
    nth_error (sorted train_answers) p = Some label /\
    b = (answer =? label)%string.
Proof.
  unfold judged_correct, index.
  destruct (nth_error train_answers i) as [answer |]; [| discriminate].
  destruct (nth_error predicted_indices i) as [p |]; [| discriminate].
  destruct (nth_error (sorted train_answers) p) as [label |] eqn:El; [| discriminate].
  intros Heq. injection Heq as <-. exists answer, p, label. repeat split. exact El.
Qed.

(** X17.  When the label file lists its queries in ascending order and
    names none twice, row [i] is the query of line [i], and the test of
    line 160 compares the predicted label with the label recorded for that
    query. *)
Lemma judged_correct_sorted_file (test_files train_answers : list string)
    (predicted_indices : list nat) (i p : nat) (query : string) (b : bool) :
  sorted test_files = test_files -> NoDup test_files ->
  List.length test_files = List.length train_answers ->
  nth_error (sorted test_files) i = Some query ->
  nth_error predicted_indices i = Some p ->
  judged_correct train_answers predicted_indices i = Ok b ->
  (b = true <->
   exists label, nth_error (sorted train_answers) p = Some label /\
                 recorded_label test_files train_answers query = Some label).
Proof.
  intros Hsorted Hnd Hlen Hq Hp Hj. rewrite Hsorted in Hq.
  rewrite (recorded_label_nth _ _ _ _ Hnd Hlen Hq).
  apply judged_correct_spec in Hj.
  destruct Hj as (answer & p' & label & Ha & Hp' & Hl & ->).
  rewrite Hp in Hp'. injection Hp' as <-. rewrite Ha, Hl. split.
  - intros Heq. apply String.eqb_eq in Heq. subst. eauto.
  - intros (label' & E1 & E2). injection E1 as <-. injection E2 as ->.
    apply String.eqb_refl.
Qed.

Lemma successes_none (rs : list (result Q)) :
  Forall (fun r => is_ok r = false) rs -> successes rs = [].
Proof.
  induction 1 as [| r rs Hr _ IH]; [reflexivity |].
  destruct r; [discriminate | exact IH].
Qed.

End Judgement.

(** ** Inputs for the examples *)

Module Fixtures.

Definition newline : string := String (ascii_of_nat 10) EmptyString.

(** An instance whose runs live under [/r]. *)
Definition config : t :=
  {| nrun := 2; script_dir := "/"; all_runs_dir := "/r";
     label_filename := "class_labels.txt" |}.

(** A disk with nothing on it. *)
Definition empty_disk : FileSystem :=
  {| path_exists := fun _ => false;
     path_isfile := fun _ => false;
     readlines := fun p => Raise (FileNotFoundError p);
     imread := fun p => Raise (FileNotFoundError p) |}.

(** A disk with [/r/run01] and its label file of the given lines. *)
Definition disk (lines : list string) : FileSystem :=
  {| path_exists := fun p => (p =? "/r/run01")%string;
     path_isfile := fun p => (p =? "/r/run01/class_labels.txt")%string;
     readlines := fun _ => Ok lines;
     imread := fun p => Raise (FileNotFoundError p) |}.

(** A disk on which every image file holds the given grid. *)
Definition image_disk (image : list (list Z)) : FileSystem :=
  {| path_exists := fun _ => true;
     path_isfile := fun _ => true;
     readlines := fun _ => Ok [];
     imread := fun _ => Ok image |}.

(** A loader that stands a file's name for its image. *)
Definition by_name (filename : string) : result string := Ok filename.

(** A cost under which [a] matches [y] and [b] matches [x]. *)
Definition crossed (q c : string) : result Q :=
  Ok (if (((q =? "/r/a") && (c =? "/r/y")) || ((q =? "/r/b") && (c =? "/r/x")))%string
      then 0%Q else 1%Q).

(** A cost that tells nothing apart. *)
Definition flat (q c : string) : result Q := Ok 0%Q.

(** The label file [b x / a y]: its queries are not in ascending order. *)
Definition unsorted_lines : list string :=
  [("b x" ++ newline)%string; ("a y" ++ newline)%string].

(** The label file [q1 c / q2 c]: two queries share a candidate. *)
Definition shared_lines : list string :=
  [("q1 c" ++ newline)%string; ("q2 c" ++ newline)%string].

(** A 2x2 image, all white; and one with the diagonal black. *)
Definition white : list (list Z) := [[255; 255]; [255; 255]]%Z.
Definition diagonal : list (list Z) := [[0; 255]; [255; 0]]%Z.

(** A cost matrix whose only row has its least entry twice. *)
Definition tied : ndarray Q := mk_ndarray 1 4 [[3; 1; 1; 5]%Q].

End Fixtures.

(** ** The point-set extractor *)

Section Extractor.
Import Fixtures.
Local Open Scope R_scope.

(** C9.  For an image with at least one foreground (black) pixel,
    [_load_image_points] returns a point set that is not empty and whose
    centroid is the origin: the mean of the coordinates along each axis is 0
    (exactly, in real arithmetic). *)
Theorem extractor_centroid_is_origin (fs : FileSystem) (filename : string)
    (image : list (list Z)) :
  imread fs filename = Ok image ->
  has_foreground image = true ->
  exists points,
    _load_image_points fs filename = Ok points /\
    points <> [] /\
    Rmean (map fst points) = 0 /\ Rmean (map snd points) = 0.
Proof.
  intros Hread Hfg. unfold _load_image_points. rewrite Hread.
  assert (Hne : nonzero (bool_array image) <> []).
  { intros Hnil. apply nonzero_foreground in Hnil. congruence. }
  exists (centred (nonzero (bool_array image))). split; [reflexivity |].
  split; [| now apply centred_centroid].
  unfold centred. destruct (nonzero (bool_array image)); [congruence | discriminate].
Qed.

Lemma extractor_centroid_is_origin_witness :
  exists points,
    _load_image_points (image_disk diagonal) "item01.png" = Ok points /\
    points <> [] /\
    Rmean (map fst points) = 0 /\ Rmean (map snd points) = 0.
Proof.
  apply (extractor_centroid_is_origin (image_disk diagonal) "item01.png" diagonal);
    reflexivity.
Defined.

(** C3, as the code has it.  For an image with no foreground pixel,
    [_load_image_points] raises nothing: it returns the empty point set. *)
Theorem extractor_empty_on_background (fs : FileSystem) (filename : string)
    (image : list (list Z)) :
  imread fs filename = Ok image ->
  has_foreground image = false ->
  _load_image_points fs filename = Ok [].
Proof.
  intros Hread Hbg. unfold _load_image_points. rewrite Hread.
  apply nonzero_foreground in Hbg. rewrite Hbg. reflexivity.
Qed.

Lemma extractor_empty_on_background_witness :
  _load_image_points (image_disk white) "item01.png" = Ok [].
Proof.
  apply (extractor_empty_on_background (image_disk white) "item01.png" white);
    reflexivity.
Defined.

(** C3, as stated, fails: on an all-white 2x2 image the extractor returns
    (the empty point set) instead of failing. *)
Lemma extractor_background_counterexample :
  has_foreground white = false /\
  is_ok (_load_image_points (image_disk white) "item01.png") = true /\
  _load_image_points (image_disk white) "item01.png" = Ok [].
Proof. repeat split. Qed.

End Extractor.

(** ** The modified Hausdorff distance *)

Section Symmetry.
Local Open Scope R_scope.

(** C6.  For point sets [A] and [B] that are not empty, the distance is
    defined and symmetric: [_modified_hausdorff_distance A B] and
    [_modified_hausdorff_distance B A] return the same number. *)
Theorem distance_symmetric (itemA itemB : list point) :
  itemA <> [] -> itemB <> [] ->
  exists d,
    _modified_hausdorff_distance itemA itemB = Ok d /\
    _modified_hausdorff_distance itemB itemA = Ok d.
Proof.
  intros HA HB.
  rewrite (distance_nonempty itemA itemB HA HB), (distance_nonempty itemB itemA HB HA).
  eexists. split; [reflexivity |]. f_equal. rewrite py_max_comm. f_equal; f_equal.
  - apply map_ext. intros a. f_equal. apply map_ext. intros b. apply euclidean_sym.
  - apply map_ext. intros b. f_equal. apply map_ext. intros a. apply euclidean_sym.
Qed.

Lemma distance_symmetric_witness :
  exists d,
    _modified_hausdorff_distance [(0, 0)] [(1, 0); (0, 2)] = Ok d /\
    _modified_hausdorff_distance [(1, 0); (0, 2)] [(0, 0)] = Ok d.
Proof.
  apply (distance_symmetric [(0, 0)] [(1, 0); (0, 2)]); discriminate.
Defined.

End Symmetry.

(** ** The choice of the best column *)

Section Selection.
Import Fixtures.
Context {C : Type} `{Cost C}.

(** C7.  In every row of the cost matrix, the column [select] picks holds a
    least entry of the row under ["cost"] (a greatest one under ["score"]),
    and no column before it holds one: among equal best entries the lowest
    column index wins. *)
Theorem select_lowest_index (ftype : string) (cost_matrix : ndarray C)
    (predicted_indices : list nat) (i j : nat) (row : list C) :
  select ftype cost_matrix = Ok predicted_indices ->
  nth_error (rows cost_matrix) i = Some row ->
  nth_error predicted_indices i = Some j ->
  exists v,
    nth_error row j = Some v /\
    ((ftype = "cost" /\ minimal_in row v /\
      forall k u, nth_error row k = Some u -> minimal_in row u -> j <= k)
     \/
     (ftype = "score" /\ maximal_in row v /\
      forall k u, nth_error row k = Some u -> maximal_in row u -> j <= k)).
Proof.
  unfold select. intros Hsel Hrow Hj.
  destruct (String.eqb_spec ftype "cost") as [Hcost | _].
  - pose proof (each_row_nth argmin _ _ _ _ _ Hsel Hrow Hj) as Harg.
    apply argmin_first in Harg. destruct Harg as (v & Hv & Hmin & Hfirst).
    exists v. split; [exact Hv |]. left. repeat split; auto.
    intros k u Hu Humin. destruct (Nat.le_gt_cases j k) as [Hle | Hlt]; [exact Hle |].
    specialize (Hfirst k u Hlt Hu). specialize (Humin j v Hv). congruence.
  - destruct (String.eqb_spec ftype "score") as [Hscore | _]; [| discriminate].
    pose proof (each_row_nth argmax _ _ _ _ _ Hsel Hrow Hj) as Harg.
    apply argmax_first in Harg. destruct Harg as (v & Hv & Hmax & Hfirst).
    exists v. split; [exact Hv |]. right. repeat split; auto.
    intros k u Hu Humax. destruct (Nat.le_gt_cases j k) as [Hle | Hlt]; [exact Hle |].
    specialize (Hfirst k u Hlt Hu). specialize (Humax j v Hv). congruence.
Qed.

(** A matrix whose rows have entries gets a column for every row. *)
Lemma select_total (ftype : string) (cost_matrix : ndarray C) :
  ftype = "cost" \/ ftype = "score" ->
  Forall (fun row => row <> []) (rows cost_matrix) ->
  exists predicted_indices,
    select ftype cost_matrix = Ok predicted_indices /\
    List.length predicted_indices = List.length (rows cost_matrix).
Proof.
  intros Hftype Hrows. unfold select, argmin_axis1, argmax_axis1.
  destruct Hftype as [-> | ->]; cbn [String.eqb Ascii.eqb Bool.eqb andb].
  - destruct (each_row_total argmin (rows cost_matrix)) as [js Hjs].
    + eapply Forall_impl; [| exact Hrows]. intros [| x xs] Hne; [congruence | reflexivity].
    + exists js. split; [exact Hjs |]. eapply each_row_length; eauto.
  - destruct (each_row_total argmax (rows cost_matrix)) as [js Hjs].
    + eapply Forall_impl; [| exact Hrows]. intros [| x xs] Hne; [congruence | reflexivity].
    + exists js. split; [exact Hjs |]. eapply each_row_length; eauto.
Qed.

End Selection.

Lemma select_lowest_index_witness :
  exists v,
    nth_error [3; 1; 1; 5]%Q 1 = Some v /\
    (("cost" = "cost" /\ minimal_in [3; 1; 1; 5]%Q v /\
      forall k u, nth_error [3; 1; 1; 5]%Q k = Some u ->
                  minimal_in [3; 1; 1; 5]%Q u -> 1 <= k)
     \/
     ("cost" = "score" /\ maximal_in [3; 1; 1; 5]%Q v /\
      forall k u, nth_error [3; 1; 1; 5]%Q k = Some u ->
                  maximal_in [3; 1; 1; 5]%Q u -> 1 <= k)).
Proof.
  apply (select_lowest_index "cost" Fixtures.tied [1] 0 1 [3; 1; 1; 5]%Q); reflexivity.
Defined.

(** ** One classification run *)

Section Run.
Context {Img C : Type} `{Cost C}.

(** C8.  When the run's directory is missing, or its label file is,
    [_classification_run] raises the failure of that case ([ValueError] for
    the directory, [FileNotFoundError] for the label file) and its log is
    empty: the loader was never called. *)
Theorem missing_trial_fails_before_loading (fs : FileSystem) (self : t)
    (folder : string) (f_load : string -> result Img)
    (f_cost : Img -> Img -> result C) (ftype : string) :
  path_exists fs (run_dir self folder) = false \/
  path_isfile fs (labels_path self folder) = false ->
  trace (_classification_run fs self folder f_load f_cost ftype) = [] /\
  loads (trace (_classification_run fs self folder f_load f_cost ftype)) = [] /\
  outcome (_classification_run fs self folder f_load f_cost ftype)
  = Raise (if path_exists fs (run_dir self folder)
           then FileNotFoundError
                  ("Labels file " ++ labels_path self folder ++ " not found.")
           else ValueError
                  ("The folder " ++ folder ++ " does not exist in the runs directory.")).
Proof.
  intros Hmissing. unfold _classification_run, read_labels.
  destruct (path_exists fs (run_dir self folder)) eqn:Hdir; cbn [negb].
  - destruct Hmissing as [Hd | Hf]; [discriminate |]. rewrite Hf. cbn [negb].
    repeat split.
  - repeat split.
Qed.

(** C4, as the code has it.  Whenever the cost matrix is built, it has one
    row per query entry and one column per candidate entry of the label
    file, a repeated candidate counted each time; so it has at least as many
    columns as there are distinct candidates, and exactly as many when no
    candidate repeats. *)
Theorem cost_matrix_one_column_per_entry (self : t)
    (f_load : string -> result Img) (f_cost : Img -> Img -> result C)
    (test_files train_answers : list string) (log : list event) (M : ndarray C) :
  build_cost_matrix self f_load f_cost test_files train_answers = (log, Ok M) ->
  nrows M = List.length test_files /\
  ncols M = List.length train_answers /\
  well_shaped M /\
  count_distinct train_answers <= ncols M /\
  (ncols M = count_distinct train_answers <-> NoDup train_answers).
Proof.
  intros Hbuild. apply build_cost_matrix_shape in Hbuild.
  destruct Hbuild as (Hn & Hm & Hwf).
  split; [exact Hn |]. split; [exact Hm |]. split; [exact Hwf |]. split; [| split].
  - rewrite Hm. apply nodup_length_le.
  - intros Heq. apply count_distinct_full. congruence.
  - intros Hnd. apply count_distinct_full in Hnd. congruence.
Qed.

(** C10.  For a label file that is there, has a line, and whose every line
    splits into two tokens: the first tokens are the queries, the second the
    answers; every cost matrix built from them is square, with as many rows
    and columns as the file has lines; and with a loader and a cost that
    return, one is built. *)
Theorem cost_matrix_square (fs : FileSystem) (self : t) (folder : string)
    (f_load : string -> result Img) (f_cost : Img -> Img -> result C)
    (lines : list string) :
  path_exists fs (run_dir self folder) = true ->
  path_isfile fs (labels_path self folder) = true ->
  readlines fs (labels_path self folder) = Ok lines ->
  lines <> [] ->
  Forall (fun line => List.length (split (strip line)) = 2) lines ->
  let test_files := map (fun line => nth 0 (split (strip line)) EmptyString) lines in
  let train_answers := map (fun line => nth 1 (split (strip line)) EmptyString) lines in
  read_labels fs self folder = ([], Ok (test_files, train_answers)) /\
  (forall log M,
      build_cost_matrix self f_load f_cost test_files train_answers = (log, Ok M) ->
      nrows M = ncols M /\ nrows M = List.length lines /\ well_shaped M) /\
  ((forall f, is_ok (f_load f) = true) ->
   (forall a b, is_ok (f_cost a b) = true) ->
   exists log M,
     build_cost_matrix self f_load f_cost test_files train_answers = (log, Ok M)).
Proof.
  intros Hdir Hfile Hread Hne Hpairs test_files train_answers.
  split; [| split; [intros log M H0; split; [| split] |]].
  - unfold read_labels. rewrite Hdir, Hfile, Hread. cbn [negb lift bind].
    rewrite zip_star_pairs.
    + subst test_files train_answers. rewrite !map_map. reflexivity.
    + destruct lines; [congruence | discriminate].
    + apply Forall_forall. intros r Hr. apply in_map_iff in Hr.
      destruct Hr as (line & <- & Hin). rewrite Forall_forall in Hpairs. auto.
  - apply build_cost_matrix_shape in H0. destruct H0 as (Hn & Hm & _).
    subst test_files train_answers. rewrite length_map in Hn, Hm. congruence.
  - apply build_cost_matrix_shape in H0. destruct H0 as (Hn & _ & _).
    subst test_files. now rewrite length_map in Hn.
  - apply build_cost_matrix_shape in H0. now destruct H0 as (_ & _ & Hwf).
  - apply build_cost_matrix_total.
Qed.

End Run.

Section RunExamples.
Import Fixtures.

Lemma missing_trial_fails_before_loading_witness :
  trace (_classification_run empty_disk config "run01" by_name crossed "cost") = [] /\
  loads (trace (_classification_run empty_disk config "run01" by_name crossed "cost")) = [] /\
  outcome (_classification_run empty_disk config "run01" by_name crossed "cost")
  = Raise (if path_exists empty_disk (run_dir config "run01")
           then FileNotFoundError
                  ("Labels file " ++ labels_path config "run01" ++ " not found.")
           else ValueError
                  ("The folder " ++ "run01" ++ " does not exist in the runs directory.")).
Proof.
  apply (missing_trial_fails_before_loading empty_disk config "run01" by_name crossed "cost").
  left. reflexivity.
Defined.

Lemma cost_matrix_one_column_per_entry_witness :
  let M := mk_ndarray 2 2 [[1; 0]; [0; 1]]%Q in
  nrows M = List.length ["b"; "a"] /\
  ncols M = List.length ["x"; "y"] /\
  well_shaped M /\
  count_distinct ["x"; "y"] <= ncols M /\
  (ncols M = count_distinct ["x"; "y"] <-> NoDup ["x"; "y"]).
Proof.
  apply (cost_matrix_one_column_per_entry config by_name crossed ["b"; "a"] ["x"; "y"]
           [EvLoad "/r/a"; EvLoad "/r/b"; EvLoad "/r/x"; EvLoad "/r/y"]).
  reflexivity.
Defined.

(** C4, as stated, fails: with the label file [q1 c / q2 c] the matrix has
    two columns, and the trial one distinct candidate. *)
Lemma shared_candidate_counterexample :
  read_labels (disk shared_lines) config "run01" = ([], Ok (["q1"; "q2"], ["c"; "c"])) /\
  outcome (build_cost_matrix config by_name flat ["q1"; "q2"] ["c"; "c"])
  = Ok (mk_ndarray 2 2 [[0; 0]; [0; 0]]%Q) /\
  count_distinct ["c"; "c"] = 1 /\
  ncols (mk_ndarray 2 2 [[0; 0]; [0; 0]]%Q) <> count_distinct ["c"; "c"].
Proof. repeat split. discriminate. Qed.

Lemma cost_matrix_square_witness :
  let test_files :=
    map (fun line => nth 0 (split (strip line)) EmptyString) unsorted_lines in
  let train_answers :=
    map (fun line => nth 1 (split (strip line)) EmptyString) unsorted_lines in
  read_labels (disk unsorted_lines) config "run01" = ([], Ok (test_files, train_answers)) /\
  (forall log M,
      build_cost_matrix config by_name crossed test_files train_answers = (log, Ok M) ->
      nrows M = ncols M /\ nrows M = List.length unsorted_lines /\ well_shaped M) /\
  ((forall f, is_ok (by_name f) = true) ->
   (forall a b, is_ok (crossed a b) = true) ->
   exists log M,
     build_cost_matrix config by_name crossed test_files train_answers = (log, Ok M)).
Proof.
  apply (cost_matrix_square (disk unsorted_lines) config "run01" by_name crossed
           unsorted_lines); try reflexivity.
  - discriminate.
  - repeat constructor.
Defined.

(** C1 at the label file [b x / a y].  The rows of the matrix follow the
    sorted queries [a, b]; the costs put row 0 (query [a]) on column 1, the
    label [y], which is the label the file records for [a].  Yet line 160
    compares with the answer of line 0 of the file, [x], the label of query
    [b], and counts query [a] as wrong; so it does for [b], and the run
    reports an error rate of 100 where every prediction was right. *)
Theorem unsorted_label_file_misjudged :
  read_labels (disk unsorted_lines) config "run01" = ([], Ok (["b"; "a"], ["x"; "y"])) /\
  sorted ["b"; "a"] = ["a"; "b"] /\
  outcome (build_cost_matrix config by_name crossed ["b"; "a"] ["x"; "y"])
  = Ok (mk_ndarray 2 2 [[1; 0]; [0; 1]]%Q) /\
  select "cost" (mk_ndarray 2 2 [[1; 0]; [0; 1]]%Q) = Ok [1; 0] /\
  recorded_label ["b"; "a"] ["x"; "y"] "a" = Some "y" /\
  index (sorted ["x"; "y"]) 1 = Ok "y" /\
  judged_correct ["x"; "y"] [1; 0] 0 = Ok false /\
  outcome (_classification_run (disk unsorted_lines) config "run01" by_name crossed "cost")
  = Ok (200 # 2)%Q.
Proof. repeat split. Qed.

End RunExamples.

(** ** The experiments *)

Section Experiments.
Import Fixtures.

(** C5.  [run_experiments] returns whatever runs fail.  It prints the
    banner, then for each run from 1 to [nrun], in order, either its error
    rate or its failure, then the aggregate: the mean of the error rates of
    exactly the runs that returned, which is their sum over their number
    when there is one. *)
Theorem failed_runs_reported_and_skipped (fs : FileSystem) (self : t) :
  outcome (run_experiments fs self) = Ok tt /\
  prints (trace (run_experiments fs self))
  = EvBanner
    :: map (fun run => report_line run (outcome (one_run fs self run)))
           (seq 1 (nrun self))
    ++ [EvResult (nrun self) (mean (successes (outcomes fs self)))] /\
  (successes (outcomes fs self) <> [] ->
   mean (successes (outcomes fs self))
   = Fin (Qsum (successes (outcomes fs self))
          / inject_Z (Z.of_nat (List.length (successes (outcomes fs self)))))%Q).
Proof.
  destruct (run_experiments_report fs self) as [Hout Hprints].
  repeat split; try assumption.
  intros Hne. unfold mean. destruct (successes (outcomes fs self)); [congruence | reflexivity].
Qed.

(** C2, as the code has it.  When every run fails, [run_experiments] raises
    nothing: it returns, having printed every failure and, as the aggregate,
    the [nan] that is the mean of no rates. *)
Theorem all_runs_failed_reports_nan (fs : FileSystem) (self : t) :
  Forall (fun r => is_ok r = false) (outcomes fs self) ->
  outcome (run_experiments fs self) = Ok tt /\
  prints (trace (run_experiments fs self))
  = EvBanner
    :: map (fun run => report_line run (outcome (one_run fs self run)))
           (seq 1 (nrun self))
    ++ [EvResult (nrun self) NaN].
Proof.
  intros Hfail. destruct (run_experiments_report fs self) as [Hout Hprints].
  split; [exact Hout |]. rewrite Hprints, (successes_none _ Hfail). reflexivity.
Qed.

Lemma all_runs_failed_reports_nan_witness :
  outcome (run_experiments empty_disk config) = Ok tt /\
  prints (trace (run_experiments empty_disk config))
  = EvBanner
    :: map (fun run => report_line run (outcome (one_run empty_disk config run)))
           (seq 1 (nrun config))
    ++ [EvResult (nrun config) NaN].
Proof.
  apply (all_runs_failed_reports_nan empty_disk config). repeat constructor.
Defined.

(** C2, as stated, fails: on a disk with no run directory both runs fail,
    and [run_experiments] returns; its last line reports [nan]. *)
Lemma no_successful_trial_counterexample :
  Forall (fun r => is_ok r = false) (outcomes empty_disk config) /\
  outcome (run_experiments empty_disk config) = Ok tt /\
  prints (trace (run_experiments empty_disk config))
  = [EvBanner;
     EvError 1 "The folder run01 does not exist in the runs directory.";
     EvError 2 "The folder run02 does not exist in the runs directory.";
     EvResult 2 NaN].
Proof. repeat split; repeat constructor. Qed.

End Experiments.

(** * Further properties of the code *)

(** ** Statements *)

(** Where [_classification_run] looks for an image: under the runs
    directory, not under the run's own folder (lines 135 and 139). *)
Definition image_path (self : t) (f : string) : string :=
  path_join (all_runs_dir self) f.

(** The loader calls for a list of names, in the order they are made. *)
Definition load_events (self : t) (files : list string) : list event :=
  map (fun f => EvLoad (image_path self f)) (sorted files).

(** What the handler of line 165 raises for a failure [e] inside the [try]. *)
Definition wrapped (e : exn) : exn :=
  RuntimeError ("Error during classification run: " ++ str_exn e) e.

(** The body of the [try] of lines 133-163. *)
Definition attempt {Img C} `{Cost C} (self : t) (f_load : string -> result Img)
    (f_cost : Img -> Img -> result C) (ftype : string)
    (test_files train_answers : list string) : M Q :=
  bind (build_cost_matrix self f_load f_cost test_files train_answers)
       (fun cost_matrix =>
          bind (lift (select ftype cost_matrix))
               (fun predicted_indices =>
                  bind (count_correct (List.length test_files) train_answers
                                      predicted_indices)
                       (fun correct_predictions =>
                          lift (error_rate (List.length test_files)
                                           correct_predictions)))).

(** The rows that line 160 counts as correct. *)
Definition correct_rows (train_answers : list string) (predicted_indices : list nat)
    (n_test : nat) : list nat :=
  filter (fun i => match judged_correct train_answers predicted_indices i with
                   | Ok true => true
                   | _ => false
                   end)
         (seq 0 n_test).

(** The tokens of a line of the label file (line 126). *)
Definition tokens (line : string) : list string := split (strip line).

(** Ascending in the order of [sorted]. *)
Definition ascending (xs : list string) : Prop :=
  forall i x y, nth_error xs i = Some x -> nth_error xs (S i) = Some y ->
                String.leb x y = true.

(** The number of pixels of value 0. *)
Definition count_black (image : list (list Z)) : nat :=
  List.length (filter (fun v => (v =? 0)%Z) (List.concat image)).

(** ** Logs *)

Section Logs.

Lemma trace_bind {A B} (m : M A) (k : A -> M B) (l1 : list event) (a : A) :
  m = (l1, Ok a) -> trace (bind m k) = l1 ++ trace (k a).
Proof. intros Hm. now rewrite (bind_eq _ _ _ _ Hm). Qed.

(** A loop whose passes log nothing logs nothing. *)
Lemma for_each_quiet {A S} (body : A -> S -> M S) (xs : list A) :
  (forall x s, trace (body x s) = []) -> forall s, trace (for_each xs body s) = [].
Proof.
  intros Hbody. induction xs as [| x xs IH]; intros s; cbn [for_each]; [reflexivity |].
  specialize (Hbody x s). destruct (body x s) as [l1 [s1 | e]]; cbn in Hbody; subst l1.
  - specialize (IH s1). cbn [bind]. destruct (for_each xs body s1) as [l2 r].
    cbn in IH |- *. exact IH.
  - reflexivity.
Qed.

Lemma lift_bind_quiet {A B} (r : result A) (k : A -> M B) :
  (forall a, trace (k a) = []) -> trace (bind (lift r) k) = [].
Proof.
  intros Hk. destruct r as [a | e]; cbn; [| reflexivity].
  specialize (Hk a). destruct (k a) as [l r]. cbn in Hk |- *. exact Hk.
Qed.

End Logs.

Section LoadingAndCounting.
Context {Img C : Type} `{Cost C}.
Variable self : t.
Variable f_load : string -> result Img.
Variable f_cost : Img -> Img -> result C.

Lemma fill_quiet (n m : nat) (test_images train_images : list Img) :
  trace (fill f_cost n m test_images train_images) = [].
Proof.
  unfold fill. apply for_each_quiet. intros [i test_img] M0.
  unfold fill_row. apply for_each_quiet. intros [j train_img] M1.
  apply lift_bind_quiet. intros v. reflexivity.
Qed.

Lemma count_correct_quiet (n : nat) (train_answers : list string) (js : list nat) :
  trace (count_correct n train_answers js) = [].
Proof.
  unfold count_correct. apply for_each_quiet. intros i total.
  apply lift_bind_quiet. intros ok. reflexivity.
Qed.

(** The images loaded so far, when every call returned. *)
Lemma load_all (files : list string) :
  (forall f, In f files -> is_ok (f_load (image_path self f)) = true) ->
  exists images,
    comprehension (fun f => call_load f_load (path_join (all_runs_dir self) f)) files
    = (map (fun f => EvLoad (image_path self f)) files, Ok images) /\
    List.length images = List.length files.
Proof.
  induction files as [| f files IH]; intros Hok; cbn [comprehension map].
  - now exists [].
  - destruct IH as (images & Hrun & Hlen); [intros; apply Hok; now right |].
    specialize (Hok f (or_introl eq_refl)). unfold image_path in Hok.
    destruct (f_load (path_join (all_runs_dir self) f)) as [img | e] eqn:E; [| discriminate].
    assert (Hcall : call_load f_load (path_join (all_runs_dir self) f)
                    = ([EvLoad (image_path self f)], Ok img)).
    { unfold call_load, emit, lift. cbn [bind]. now rewrite E. }
    rewrite (bind_eq _ _ _ _ Hcall), (bind_eq _ _ _ _ Hrun). cbn.
    exists (img :: images). rewrite app_nil_r. split; [reflexivity |].
    cbn. now rewrite Hlen.
Qed.

(** The loading stops at the first call that raises. *)
Lemma load_until_failure (before after : list string) (f : string) (e : exn) :
  (forall g, In g before -> is_ok (f_load (image_path self g)) = true) ->
  f_load (image_path self f) = Raise e ->
  comprehension (fun f => call_load f_load (path_join (all_runs_dir self) f))
                (before ++ f :: after)
  = (map (fun f => EvLoad (image_path self f)) (before ++ [f]), Raise e).
Proof.
  induction before as [| g before IH]; intros Hok Hfail; cbn [app comprehension map].
  - unfold call_load, emit, lift. cbn [bind]. unfold image_path in Hfail.
    rewrite Hfail. reflexivity.
  - pose proof (Hok g (or_introl eq_refl)) as Hg. unfold image_path in Hg.
    destruct (f_load (path_join (all_runs_dir self) g)) as [img | e'] eqn:E; [| discriminate].
    assert (Hcall : call_load f_load (path_join (all_runs_dir self) g)
                    = ([EvLoad (image_path self g)], Ok img)).
    { unfold call_load, emit, lift. cbn [bind]. now rewrite E. }
    rewrite (bind_eq _ _ _ _ Hcall).
    rewrite IH; [reflexivity | intros; apply Hok; now right | exact Hfail].
Qed.

(** A loading that returned has called the loader on every name. *)
Lemma load_returned (files : list string) :
  forall log images,
    comprehension (fun f => call_load f_load (path_join (all_runs_dir self) f)) files
    = (log, Ok images) ->
    log = map (fun f => EvLoad (image_path self f)) files.
Proof.
  induction files as [| f files IH]; intros log images Hrun; cbn [comprehension] in Hrun.
  - injection Hrun as <- _. reflexivity.
  - apply bind_Ok in Hrun. destruct Hrun as (l1 & img & l2 & H1 & H2 & ->).
    apply bind_Ok in H2. destruct H2 as (l3 & imgs & l4 & H3 & H4 & ->).
    injection H4 as <- _. rewrite (IH _ _ H3). rewrite app_nil_r.
    unfold call_load, emit, lift in H1. cbn [bind] in H1.
    destruct (f_load (path_join (all_runs_dir self) f)); [| discriminate].
    injection H1 as <- _. reflexivity.
Qed.

(** A matrix that was built cost one loader call per name: the queries in
    sorted order, then the answers in sorted order. *)
Lemma build_cost_matrix_returned (test_files train_answers : list string)
    (log : list event) (M : ndarray C) :
  build_cost_matrix self f_load f_cost test_files train_answers = (log, Ok M) ->
  log = load_events self test_files ++ load_events self train_answers.
Proof.
  unfold build_cost_matrix. intros Hrun.
  apply bind_Ok in Hrun. destruct Hrun as (l1 & tests & l2 & H1 & Hrun & ->).
  apply bind_Ok in Hrun. destruct Hrun as (l3 & trains & l4 & H2 & Hrun & ->).
  apply load_returned in H1, H2. subst l1 l3.
  pose proof (fill_quiet (List.length test_files) (List.length train_answers)
                tests trains) as Hq.
  rewrite Hrun in Hq. cbn in Hq. subst l4. now rewrite app_nil_r.
Qed.

(** The count of line 158 is the number of rows that pass the test. *)
Lemma count_from (train_answers : list string) (js : list nat) (rows_left : list nat) :
  forall total log c,
    for_each rows_left
      (fun i total =>
         bind (lift (judged_correct train_answers js i))
              (fun ok => ret (if ok then S total else total)))
      total
    = (log, Ok c) ->
    c = total + List.length
                  (filter (fun i => match judged_correct train_answers js i with
                                    | Ok true => true
                                    | _ => false
                                    end) rows_left).
Proof.
  induction rows_left as [| i rows_left IH]; intros total log c Hrun;
    cbn [for_each] in Hrun.
  - injection Hrun as _ <-. cbn. lia.
  - apply bind_Ok in Hrun. destruct Hrun as (l1 & t1 & l2 & H1 & H2 & _).
    apply IH in H2. cbn [filter].
    destruct (judged_correct train_answers js i) as [[|] | e]; cbn in H1;
      try discriminate; injection H1 as _ <-; cbn [List.length]; lia.
Qed.

Lemma count_correct_returned (n : nat) (train_answers : list string) (js : list nat)
    (log : list event) (c : nat) :
  count_correct n train_answers js = (log, Ok c) ->
  c = List.length (correct_rows train_answers js n) /\ c <= n.
Proof.
  intros Hrun. apply count_from in Hrun. cbn in Hrun. split; [exact Hrun |].
  subst c. unfold correct_rows.
  etransitivity; [apply filter_length_le |]. now rewrite length_seq.
Qed.

(** When every row can be judged, the count returns. *)
Lemma count_correct_total (n : nat) (train_answers : list string) (js : list nat) :
  (forall i, i < n -> is_ok (judged_correct train_answers js i) = true) ->
  exists c, count_correct n train_answers js = ([], Ok c).
Proof.
  intros Hj. unfold count_correct.
  destruct (for_each_total (fun _ : nat => True)
              (fun i total =>
                 bind (lift (judged_correct train_answers js i))
                      (fun ok => ret (if ok then S total else total)))
              (seq 0 n)) with (s := 0) as (log & c & Hrun & _).
  - intros i total Hin _. apply in_seq in Hin. specialize (Hj i ltac:(lia)).
    destruct (judged_correct train_answers js i) as [ok | e]; [| discriminate].
    cbn. eauto.
  - exact I.
  - exists c. pose proof (count_correct_quiet n train_answers js) as Hq.
    unfold count_correct in Hq. rewrite Hrun in Hq. cbn in Hq. now subst log.
Qed.

End LoadingAndCounting.

(** ** A run, stage by stage *)

Section Stages.
Context {Img C : Type} `{Cost C}.
Variable fs : FileSystem.
Variable self : t.
Variable f_load : string -> result Img.
Variable f_cost : Img -> Img -> result C.
Variable ftype : string.

Lemma bind_then {A B} (m : M A) (k : A -> M B) (l1 l2 : list event) (a : A)
    (r : result B) :
  m = (l1, Ok a) -> k a = (l2, r) -> bind m k = (l1 ++ l2, r).
Proof. intros -> Hk. cbn [bind]. now rewrite Hk. Qed.

(** What the [try ... except] of lines 133-167 makes of its body. *)
Lemma try_wrapped {A} (m : M A) :
  try_except m (fun e => raise (wrapped e))
  = (trace m, match outcome m with Ok a => Ok a | Raise e => Raise (wrapped e) end).
Proof. destruct m as [log [a | e]]; cbn; [reflexivity | now rewrite app_nil_r]. Qed.

(** Once the label file is read, the run is the guarded body. *)
Lemma run_after_labels (folder : string) (test_files train_answers : list string) :
  read_labels fs self folder = ([], Ok (test_files, train_answers)) ->
  _classification_run fs self folder f_load f_cost ftype
  = try_except (attempt self f_load f_cost ftype test_files train_answers)
               (fun e => raise (wrapped e)).
Proof.
  intros Hlabels. unfold _classification_run. rewrite (bind_eq _ _ _ _ Hlabels).
  cbn [app]. symmetry. apply surjective_pairing.
Qed.

(** A label stage that raises ends the run as it is. *)
Lemma run_without_labels (folder : string) (e : exn) :
  outcome (read_labels fs self folder) = Raise e ->
  _classification_run fs self folder f_load f_cost ftype = ([], Raise e).
Proof.
  intros Hlabels. pose proof (read_labels_trace fs self folder) as Htrace.
  destruct (read_labels fs self folder) as [log r] eqn:E. cbn in Hlabels, Htrace.
  subst log r. unfold _classification_run. now rewrite E.
Qed.

(** The rate of line 163 lies between 0 and 100. *)
Lemma error_rate_range (n c : nat) (q : Q) :
  c <= n -> error_rate n c = Ok q -> (0 <= q /\ q <= 100)%Q.
Proof.
  intros Hc. unfold error_rate. destruct (n =? 0) eqn:E; [discriminate |].
  apply Nat.eqb_neq in E. intros Heq.
  assert (Hq : q = (inject_Z (Z.of_nat n - Z.of_nat c) / inject_Z (Z.of_nat n) * 100)%Q)
    by congruence.
  clear Heq. subst q.
  remember (Z.of_nat n) as b eqn:Hb. remember (Z.of_nat c) as a eqn:Ha.
  assert (Hab : (0 <= a <= b)%Z) by lia. assert (Hpos : (0 < b)%Z) by lia.
  clear Hb Ha E Hc. destruct b as [| p | p]; try lia.
  remember (Z.pos p - a)%Z as d eqn:Hd.
  assert (Hdp : (0 <= d <= Z.pos p)%Z) by lia. clear Hd Hab.
  unfold Qle, Qdiv, Qmult, Qinv, inject_Z. cbn [Qnum Qden Z.mul Pos.mul].
  split; nia.
Qed.

(** Every row of a built matrix has an entry, when there is an answer. *)
Lemma built_rows_nonempty (n m : nat) (M : ndarray C) :
  has_shape n m M -> 0 < m -> Forall (fun row => row <> []) (rows M).
Proof.
  intros (_ & Hm & _ & Hrows) Hpos. eapply Forall_impl; [| exact Hrows].
  intros row Hlen Hnil. subst row. cbn in Hlen. lia.
Qed.

(** The columns chosen for a well-shaped matrix are columns of it. *)
Lemma selected_in_range (n m : nat) (M : ndarray C) (js : list nat) :
  has_shape n m M -> select ftype M = Ok js ->
  List.length js = n /\ Forall (fun j => j < m) js.
Proof.
  intros (Hn & Hm & Hlen & Hrows) Hsel.
  assert (Hf : exists f, each_row f (rows M) = Ok js /\
                         forall r j, f r = Ok j -> j < List.length r).
  { unfold select in Hsel.
    destruct (ftype =? "cost")%string; [| destruct (ftype =? "score")%string].
    - exists argmin. split; [exact Hsel |]. intros r j Hj.
      apply argmin_first in Hj. destruct Hj as (v & Hv & _).
      apply nth_error_Some. congruence.
    - exists argmax. split; [exact Hsel |]. intros r j Hj.
      apply argmax_first in Hj. destruct Hj as (v & Hv & _).
      apply nth_error_Some. congruence.
    - discriminate. }
  destruct Hf as (f & Hjs & Hf). split.
  - rewrite (each_row_length f _ _ Hjs). congruence.
  - apply Forall_forall. intros j Hin. apply In_nth_error in Hin.
    destruct Hin as [i Hi].
    assert (Hr : exists r, nth_error (rows M) i = Some r).
    { destruct (nth_error (rows M) i) as [r |] eqn:E; [eauto |].
      apply nth_error_None in E. rewrite <- (each_row_length f _ _ Hjs) in E.
      assert (i < List.length js) by (apply nth_error_Some; congruence). lia. }
    destruct Hr as [r Hr]. pose proof (each_row_nth f _ _ _ _ _ Hjs Hr Hi) as Hj.
    apply Hf in Hj. rewrite Forall_forall in Hrows.
    rewrite (Hrows r (nth_error_In _ _ Hr)) in Hj. congruence.
Qed.

(** With as many chosen columns as lines, each a column of the matrix,
    every row can be judged. *)
Lemma rows_judged (train_answers : list string) (js : list nat) (i : nat) :
  List.length js = List.length train_answers ->
  Forall (fun j => j < List.length train_answers) js ->
  i < List.length train_answers ->
  exists ok, judged_correct train_answers js i = Ok ok.
Proof.
  intros Hlen Hjs Hi. unfold judged_correct, index.
  destruct (nth_error train_answers i) as [answer |] eqn:Ea.
  2: { apply nth_error_None in Ea. lia. }
  destruct (nth_error js i) as [p |] eqn:Ep.
  2: { apply nth_error_None in Ep. lia. }
  rewrite Forall_forall in Hjs. pose proof (Hjs p (nth_error_In _ _ Ep)) as Hp.
  destruct (nth_error (sorted train_answers) p) as [label |] eqn:El.
  2: { apply nth_error_None in El. rewrite sorted_length in El. lia. }
  eauto.
Qed.

(** The run, when the label file reads, the loader and the cost return and
    the polarity is one of the two: it returns; its log is the loader calls
    of the queries, then of the answers; its rate is that of line 163 for
    the rows of line 160. *)
Lemma run_total (folder : string) (test_files train_answers : list string) :
  read_labels fs self folder = ([], Ok (test_files, train_answers)) ->
  (forall f, is_ok (f_load f) = true) ->
  (forall a b, is_ok (f_cost a b) = true) ->
  ftype = "cost" \/ ftype = "score" ->
  exists M js q,
    build_cost_matrix self f_load f_cost test_files train_answers
    = (load_events self test_files ++ load_events self train_answers, Ok M) /\
    select ftype M = Ok js /\
    List.length js = List.length train_answers /\
    Forall (fun j => j < List.length train_answers) js /\
    error_rate (List.length test_files)
               (List.length (correct_rows train_answers js (List.length test_files)))
    = Ok q /\
    _classification_run fs self folder f_load f_cost ftype
    = (load_events self test_files ++ load_events self train_answers, Ok q).
Proof.
  intros Hlabels Hload Hcost Hftype.
  destruct (read_labels_lengths fs self folder _ _ _ Hlabels) as [Hlen Hpos].
  destruct (build_cost_matrix_total self f_load f_cost test_files train_answers
              Hload Hcost) as (log & M & Hbuild).
  pose proof (build_cost_matrix_returned self f_load f_cost _ _ _ _ Hbuild) as Hlog.
  subst log. pose proof (build_cost_matrix_shape self f_load f_cost _ _ _ _ Hbuild)
    as Hshape.
  destruct (select_total ftype M Hftype) as (js & Hsel & _).
  { eapply built_rows_nonempty; eauto. lia. }
  destruct (selected_in_range _ _ M js Hshape Hsel) as [Hjs_len Hjs].
  destruct (count_correct_total (List.length test_files) train_answers js)
    as [c Hcount].
  { intros i Hi. destruct (rows_judged train_answers js i) as [ok Hok];
      [congruence | exact Hjs | lia |]. now rewrite Hok. }
  destruct (count_correct_returned _ _ _ _ _ Hcount) as [Hc _].
  assert (Hrate : exists q, error_rate (List.length test_files) c = Ok q).
  { unfold error_rate. destruct (List.length test_files); [lia |]. cbn. eauto. }
  destruct Hrate as [q Hrate]. exists M, js, q.
  repeat (split; [first [exact Hbuild | exact Hsel | congruence | exact Hjs] |]).
  assert (Ha : attempt self f_load f_cost ftype test_files train_answers
               = ((load_events self test_files ++ load_events self train_answers)
                    ++ ([] ++ ([] ++ [])), Ok q)).
  { unfold attempt. eapply bind_then; [exact Hbuild |].
    eapply bind_then; [unfold lift; rewrite Hsel; reflexivity |].
    eapply bind_then; [exact Hcount |]. unfold lift. now rewrite Hrate. }
  rewrite (run_after_labels folder _ _ Hlabels), try_wrapped, Ha. cbn.
  now rewrite !app_nil_r.
Qed.

(** A run that returned: what it read, built, chose and logged. *)
Lemma run_returned (folder : string) (q : Q) :
  outcome (_classification_run fs self folder f_load f_cost ftype) = Ok q ->
  exists test_files train_answers M js,
    read_labels fs self folder = ([], Ok (test_files, train_answers)) /\
    build_cost_matrix self f_load f_cost test_files train_answers
    = (load_events self test_files ++ load_events self train_answers, Ok M) /\
    select ftype M = Ok js /\
    error_rate (List.length test_files)
               (List.length (correct_rows train_answers js (List.length test_files)))
    = Ok q /\
    trace (_classification_run fs self folder f_load f_cost ftype)
    = load_events self test_files ++ load_events self train_answers.
Proof.
  intros Hrun.
  destruct (read_labels fs self folder) as [l0 [[test_files train_answers] | e]] eqn:E.
  2: { rewrite (run_without_labels folder e) in Hrun; [discriminate | now rewrite E]. }
  destruct (read_labels_Ok fs self folder _ _ _ E) as (-> & _).
  rewrite (run_after_labels folder _ _ E), try_wrapped in *. cbn [outcome trace fst snd] in *.
  destruct (attempt self f_load f_cost ftype test_files train_answers)
    as [log [q' | e]] eqn:Ea; cbn in Hrun; [| discriminate].
  injection Hrun as ->. unfold attempt in Ea.
  apply bind_Ok in Ea. destruct Ea as (l1 & M & l2 & Hbuild & Ea & ->).
  apply bind_Ok in Ea. destruct Ea as (l3 & js & l4 & Hsel & Ea & ->).
  apply bind_Ok in Ea. destruct Ea as (l5 & c & l6 & Hcount & Hrate & ->).
  unfold lift in Hsel, Hrate. injection Hsel as <- Hsel. injection Hrate as <- Hrate.
  pose proof (build_cost_matrix_returned self f_load f_cost _ _ _ _ Hbuild) as ->.
  pose proof (count_correct_quiet (List.length test_files) train_answers js) as Hq.
  rewrite Hcount in Hq. cbn in Hq. subst l5.
  destruct (count_correct_returned _ _ _ _ _ Hcount) as [-> _].
  exists test_files, train_answers, M, js. cbn. rewrite !app_nil_r. auto.
Qed.

End Stages.

(** ** The label file, by the tokens of its shortest line *)

Section Tokens.

Lemma fold_min_le (rs : list (list string)) :
  forall m, fold_left (fun m r => Nat.min m (List.length r)) rs m <= m /\
            forall r, In r rs ->
                      fold_left (fun m r => Nat.min m (List.length r)) rs m
                      <= List.length r.
Proof.
  induction rs as [| r0 rs IH]; intros m; cbn [fold_left].
  - split; [lia | intros r []].
  - destruct (IH (Nat.min m (List.length r0))) as [Hm Hin]. split; [lia |].
    intros r [<- | Hr]; [lia | auto].
Qed.

Lemma fold_min_attained (rs : list (list string)) :
  forall m, fold_left (fun m r => Nat.min m (List.length r)) rs m = m \/
            exists r, In r rs /\
                      fold_left (fun m r => Nat.min m (List.length r)) rs m
                      = List.length r.
Proof.
  induction rs as [| r0 rs IH]; intros m; cbn [fold_left]; [now left |].
  destruct (IH (Nat.min m (List.length r0))) as [Heq | (r & Hr & Heq)].
  - rewrite Heq. destruct (Nat.min_spec m (List.length r0)) as [[_ ->] | [_ ->]].
    + now left.
    + right. exists r0. split; [now left | reflexivity].
  - right. exists r. split; [now right | exact Heq].
Qed.

(** [zip] stops at the shortest row. *)
Lemma min_length_le (rows : list (list string)) (r : list string) :
  In r rows -> min_length rows <= List.length r.
Proof.
  destruct rows as [| r0 rs]; [intros [] |]. cbn [min_length].
  destruct (fold_min_le rs (List.length r0)) as [Hm Hin].
  intros [<- | Hr]; auto.
Qed.

Lemma min_length_attained (rows : list (list string)) :
  rows <> [] -> exists r, In r rows /\ min_length rows = List.length r.
Proof.
  destruct rows as [| r0 rs]; [congruence |]. intros _. cbn [min_length].
  destruct (fold_min_attained rs (List.length r0)) as [Heq | (r & Hr & Heq)].
  - exists r0. split; [now left | exact Heq].
  - exists r. split; [now right | exact Heq].
Qed.

(** The unpacking of line 128, by the number of tuples [zip] gives. *)
Lemma unpack2_by_shortest (rows : list (list string)) :
  (min_length rows < 2 -> exists msg, unpack2 (zip_star rows) = Raise (ValueError msg)) /\
  (min_length rows = 2 ->
   unpack2 (zip_star rows)
   = Ok (map (fun r => nth 0 r EmptyString) rows,
         map (fun r => nth 1 r EmptyString) rows)) /\
  (2 < min_length rows -> exists msg, unpack2 (zip_star rows) = Raise (ValueError msg)).
Proof.
  unfold zip_star. destruct (min_length rows) as [| [| [| k]]]; cbn [seq map unpack2].
  - split; [eauto | split; intros; lia].
  - split; [eauto | split; intros; lia].
  - split; [intros; lia | split; [reflexivity | intros; lia]].
  - split; [intros; lia | split; [intros; lia | eauto]].
Qed.

End Tokens.

(** ** The run as a whole *)

Section Whole.
Context {Img C : Type} `{Cost C}.
Variable fs : FileSystem.
Variable self : t.
Variable f_load : string -> result Img.
Variable f_cost : Img -> Img -> result C.

Lemma insert_sorted_In (x y : string) (xs : list string) :
  In y (insert_sorted x xs) -> y = x \/ In y xs.
Proof.
  induction xs as [| z zs IH]; cbn [insert_sorted].
  - intros [<- | []]. now left.
  - destruct (String.leb x z).
    + intros [<- | Hin]; [now left | now right].
    + intros [<- | Hin]; [right; now left |].
      destruct (IH Hin) as [-> | Hin']; [now left | right; now right].
Qed.

Lemma sorted_In (y : string) (xs : list string) : In y (sorted xs) -> In y xs.
Proof.
  induction xs as [| x xs IH]; [intros [] |].
  change (sorted (x :: xs)) with (insert_sorted x (sorted xs)). intros Hin.
  destruct (insert_sorted_In _ _ _ Hin) as [-> | Hin']; [now left | right; auto].
Qed.

(** A loader that raises ends the matrix there, whichever list the name is
    in. *)
Lemma build_until_failure (test_files train_answers before after : list string)
    (f : string) (e : exn) :
  sorted test_files ++ sorted train_answers = before ++ f :: after ->
  (forall g, In g before -> is_ok (f_load (image_path self g)) = true) ->
  f_load (image_path self f) = Raise e ->
  build_cost_matrix self f_load f_cost test_files train_answers
  = (map (fun g => EvLoad (image_path self g)) (before ++ [f]), Raise e).
Proof.
  intros Hsplit Hok Hfail. unfold build_cost_matrix, load_images.
  apply app_eq_app in Hsplit.
  destruct Hsplit as [l [[Htests Htrains] | [Hbefore Htrains]]].
  - destruct l as [| f' l].
    + cbn in Htrains. rewrite app_nil_r in Htests.
      destruct (load_all self f_load (sorted test_files)) as (tests & Hrun & _).
      { intros g Hg. apply Hok. now rewrite <- Htests. }
      rewrite (bind_eq _ _ _ _ Hrun). rewrite <- Htrains.
      rewrite (bind_raise _ _ _ _ (load_until_failure self f_load [] after f e
                                     ltac:(intros ? []) Hfail)).
      cbn [fst snd app]. rewrite map_app, Htests. reflexivity.
    + injection Htrains as <- _. rewrite Htests.
      rewrite (bind_raise _ _ _ _ (load_until_failure self f_load before l f e Hok Hfail)).
      reflexivity.
  - destruct (load_all self f_load (sorted test_files)) as (tests & Hrun & _).
    { intros g Hg. apply Hok. rewrite Hbefore. apply in_or_app. now left. }
    rewrite (bind_eq _ _ _ _ Hrun). rewrite Htrains.
    rewrite (bind_raise _ _ _ _ (load_until_failure self f_load l after f e
                                   ltac:(intros g Hg; apply Hok; rewrite Hbefore;
                                         apply in_or_app; now right) Hfail)).
    cbn [fst snd]. rewrite Hbefore, <- !map_app, app_assoc. reflexivity.
Qed.

Lemma filter_all {A} (f : A -> bool) (xs : list A) :
  (forall x, In x xs -> f x = true) -> filter f xs = xs.
Proof.
  intros Hall. apply forallb_filter_id. apply forallb_forall. exact Hall.
Qed.

End Whole.

(** ** More inputs for the examples *)

Module MoreFixtures.
Import Fixtures.

(** A loader that finds every image but [/r/b]. *)
Definition all_but_b (filename : string) : result string :=
  if (filename =? "/r/b")%string then Raise (FileNotFoundError filename)
  else Ok filename.

(** The label file [b x extra / a y]: a third token on its first line. *)
Definition long_lines : list string :=
  [("b x extra" ++ newline)%string; ("a y" ++ newline)%string].

(** The label file [q1 c / q2 c / q3 c]: one answer for every query. *)
Definition same_answer_lines : list string :=
  [("q1 c" ++ newline)%string; ("q2 c" ++ newline)%string; ("q3 c" ++ newline)%string].

(** A disk on which the script directory [/srv] exists and nothing else. *)
Definition srv_disk : FileSystem :=
  {| path_exists := fun p => (p =? "/srv")%string;
     path_isfile := fun _ => false;
     readlines := fun p => Raise (FileNotFoundError p);
     imread := fun p => Raise (FileNotFoundError p) |}.

End MoreFixtures.

(** ** What a run returns, raises and loads *)

Section RunProperties.
Context {Img C : Type} `{Cost C}.
Variable fs : FileSystem.
Variable self : t.
Variable f_load : string -> result Img.
Variable f_cost : Img -> Img -> result C.
Variable ftype : string.

Lemma loads_load_events (files : list string) :
  loads (load_events self files) = map (image_path self) (sorted files).
Proof.
  unfold load_events, loads. induction (sorted files) as [| f fs' IH]; [reflexivity |].
  cbn [map flat_map app]. now rewrite IH.
Qed.

Lemma loads_app (l1 l2 : list event) : loads (l1 ++ l2) = loads l1 ++ loads l2.
Proof. apply flat_map_app. Qed.

(** X1.  An exception leaves [_classification_run] in one of two ways.
    One raised while the folder and the label file are checked, read and
    unpacked (lines 115-128) escapes as it is, with nothing loaded.  One
    raised inside the [try] (lines 133-163) escapes as a [RuntimeError] whose
    cause it is and whose message is
    ["Error during classification run: "] followed by its own. *)
Theorem failure_escapes_early_or_wrapped (folder : string) (ex : exn) :
  outcome (_classification_run fs self folder f_load f_cost ftype) = Raise ex ->
  (outcome (read_labels fs self folder) = Raise ex /\
   trace (_classification_run fs self folder f_load f_cost ftype) = [])
  \/
  (exists test_files train_answers cause,
      outcome (read_labels fs self folder) = Ok (test_files, train_answers) /\
      outcome (attempt self f_load f_cost ftype test_files train_answers) = Raise cause /\
      ex = RuntimeError ("Error during classification run: " ++ str_exn cause) cause).
Proof.
  intros Hrun.
  destruct (read_labels fs self folder) as [l0 [[test_files train_answers] | e]] eqn:E.
  - right. destruct (read_labels_Ok fs self folder _ _ _ E) as (-> & _).
    rewrite (run_after_labels fs self f_load f_cost ftype folder _ _ E), try_wrapped in Hrun.
    cbn [outcome snd] in Hrun.
    destruct (attempt self f_load f_cost ftype test_files train_answers)
      as [log [q | cause]] eqn:Ea; cbn in Hrun; [discriminate |].
    injection Hrun as <-. exists test_files, train_answers, cause.
    rewrite Ea. repeat split.
  - left. rewrite (run_without_labels fs self f_load f_cost ftype folder e) in *;
      [| now rewrite E | now rewrite E]. cbn in Hrun |- *. injection Hrun as <-.
    split; reflexivity.
Qed.

(** X2.  An error rate that [_classification_run] returns lies between 0
    and 100: it is [100 * (n - c) / n] for the number [n] of lines of the
    label file, which is not 0, and a count [c] of at most [n]. *)
Theorem returned_rate_is_a_percentage (folder : string) (q : Q) :
  outcome (_classification_run fs self folder f_load f_cost ftype) = Ok q ->
  (0 <= q /\ q <= 100)%Q /\
  exists n c,
    0 < n /\ c <= n /\
    q = (inject_Z (Z.of_nat n - Z.of_nat c) / inject_Z (Z.of_nat n) * 100)%Q.
Proof.
  intros Hrun. apply run_returned in Hrun.
  destruct Hrun as (test_files & train_answers & M & js & Hlabels & _ & _ & Hrate & _).
  destruct (read_labels_lengths fs self folder _ _ _ Hlabels) as [_ Hpos].
  assert (Hc : List.length (correct_rows train_answers js (List.length test_files))
               <= List.length test_files).
  { unfold correct_rows. etransitivity; [apply filter_length_le |]. now rewrite length_seq. }
  split; [eapply error_rate_range; eauto |].
  exists (List.length test_files),
         (List.length (correct_rows train_answers js (List.length test_files))).
  repeat split; try assumption.
  unfold error_rate in Hrate. destruct (List.length test_files =? 0); [discriminate |].
  congruence.
Qed.

(** X3.  A run that returns has called the loader once for every entry of
    the label file and for nothing else: first the queries in sorted order,
    then the answers in sorted order, a repeated name loaded again each
    time, each name joined to the runs directory (not to the run's folder). *)
Theorem returned_run_loaded_every_entry (folder : string) (q : Q) :
  outcome (_classification_run fs self folder f_load f_cost ftype) = Ok q ->
  exists test_files train_answers,
    outcome (read_labels fs self folder) = Ok (test_files, train_answers) /\
    loads (trace (_classification_run fs self folder f_load f_cost ftype))
    = map (fun f => path_join (all_runs_dir self) f) (sorted test_files)
      ++ map (fun f => path_join (all_runs_dir self) f) (sorted train_answers) /\
    List.length (loads (trace (_classification_run fs self folder f_load f_cost ftype)))
    = 2 * List.length test_files.
Proof.
  intros Hrun. apply run_returned in Hrun.
  destruct Hrun as (test_files & train_answers & M & js & Hlabels & _ & _ & _ & Htrace).
  destruct (read_labels_lengths fs self folder _ _ _ Hlabels) as [Hlen _].
  exists test_files, train_answers. rewrite Hlabels, Htrace, loads_app, !loads_load_events.
  repeat split. rewrite length_app, !length_map, !sorted_length. lia.
Qed.

(** X4.  When the label file reads, the loader and the cost return on every
    input and the polarity is ["cost"] or ["score"], the run returns an error
    rate: no index leaves its list, no row is empty, nothing is divided by
    0. *)
Theorem run_returns_when_parts_do (folder : string)
    (test_files train_answers : list string) :
  outcome (read_labels fs self folder) = Ok (test_files, train_answers) ->
  (forall f, is_ok (f_load f) = true) ->
  (forall a b, is_ok (f_cost a b) = true) ->
  ftype = "cost" \/ ftype = "score" ->
  exists q, outcome (_classification_run fs self folder f_load f_cost ftype) = Ok q.
Proof.
  intros Hlabels Hload Hcost Hftype.
  assert (Hpair : read_labels fs self folder = ([], Ok (test_files, train_answers))).
  { pose proof (read_labels_trace fs self folder) as Ht.
    destruct (read_labels fs self folder) as [l r]. cbn in Hlabels, Ht. now subst. }
  destruct (run_total fs self f_load f_cost ftype folder _ _ Hpair Hload Hcost Hftype)
    as (M & js & q & _ & _ & _ & _ & _ & Hrun).
  exists q. now rewrite Hrun.
Qed.

(** X5.  The loading stops at the first name, in the order sorted queries
    then sorted answers, on which the loader raises: the names before it and
    that name are the loader's only calls, no cost is computed, and the run
    raises the [RuntimeError] that wraps the loader's exception. *)
Theorem run_stops_at_first_failed_load (folder : string)
    (test_files train_answers before after : list string) (f : string) (e : exn) :
  outcome (read_labels fs self folder) = Ok (test_files, train_answers) ->
  sorted test_files ++ sorted train_answers = before ++ f :: after ->
  (forall g, In g before -> is_ok (f_load (path_join (all_runs_dir self) g)) = true) ->
  f_load (path_join (all_runs_dir self) f) = Raise e ->
  loads (trace (_classification_run fs self folder f_load f_cost ftype))
  = map (fun g => path_join (all_runs_dir self) g) (before ++ [f]) /\
  outcome (_classification_run fs self folder f_load f_cost ftype)
  = Raise (RuntimeError ("Error during classification run: " ++ str_exn e) e).
Proof.
  intros Hlabels Hsplit Hok Hfail.
  assert (Hpair : read_labels fs self folder = ([], Ok (test_files, train_answers))).
  { pose proof (read_labels_trace fs self folder) as Ht.
    destruct (read_labels fs self folder) as [l r]. cbn in Hlabels, Ht. now subst. }
  rewrite (run_after_labels fs self f_load f_cost ftype folder _ _ Hpair), try_wrapped.
  unfold attempt.
  rewrite (bind_raise _ _ _ _ (build_until_failure self f_load f_cost _ _ _ _ _ _
                                 Hsplit Hok Hfail)).
  cbn [trace outcome fst snd]. split; [| reflexivity].
  unfold loads. rewrite flat_map_concat_map, map_map. cbn.
  rewrite <- flat_map_concat_map. clear.
  induction (before ++ [f]) as [| g gs IH]; [reflexivity |]. cbn. now rewrite IH.
Qed.

(** X6.  The polarity is checked late (line 154): with a polarity that is
    neither ["cost"] nor ["score"], and a loader and a cost that return, the
    run first loads every image and fills the matrix, and only then raises,
    the [ValueError] wrapped in a [RuntimeError]. *)
Theorem bad_ftype_fails_after_loading (folder : string)
    (test_files train_answers : list string) :
  outcome (read_labels fs self folder) = Ok (test_files, train_answers) ->
  (forall f, is_ok (f_load f) = true) ->
  (forall a b, is_ok (f_cost a b) = true) ->
  ftype <> "cost" -> ftype <> "score" ->
  loads (trace (_classification_run fs self folder f_load f_cost ftype))
  = map (fun f => path_join (all_runs_dir self) f) (sorted test_files)
    ++ map (fun f => path_join (all_runs_dir self) f) (sorted train_answers) /\
  outcome (_classification_run fs self folder f_load f_cost ftype)
  = Raise (RuntimeError
             "Error during classification run: ftype must be 'cost' or 'score'"
             (ValueError "ftype must be 'cost' or 'score'")).
Proof.
  intros Hlabels Hload Hcost Hc Hs.
  assert (Hpair : read_labels fs self folder = ([], Ok (test_files, train_answers))).
  { pose proof (read_labels_trace fs self folder) as Ht.
    destruct (read_labels fs self folder) as [l r]. cbn in Hlabels, Ht. now subst. }
  destruct (build_cost_matrix_total self f_load f_cost test_files train_answers
              Hload Hcost) as (log & M & Hbuild).
  pose proof (build_cost_matrix_returned self f_load f_cost _ _ _ _ Hbuild) as ->.
  assert (Ha : attempt self f_load f_cost ftype test_files train_answers
               = ((load_events self test_files ++ load_events self train_answers) ++ [],
                  Raise (ValueError "ftype must be 'cost' or 'score'"))).
  { unfold attempt. eapply bind_then; [exact Hbuild |]. unfold select.
    apply String.eqb_neq in Hc, Hs. rewrite Hc, Hs. reflexivity. }
  rewrite (run_after_labels fs self f_load f_cost ftype folder _ _ Hpair), try_wrapped, Ha.
  cbn [trace outcome fst snd]. split; [| reflexivity].
  now rewrite app_nil_r, loads_app, !loads_load_events.
Qed.

(** X7.  When every line of the label file names the same answer, the run
    reports an error rate of 0 whatever the images and the costs are: the
    label at any column of the sorted answers is that answer. *)
Theorem one_answer_is_never_wrong (folder : string)
    (test_files train_answers : list string) (answer : string) :
  outcome (read_labels fs self folder) = Ok (test_files, train_answers) ->
  Forall (fun a => a = answer) train_answers ->
  (forall f, is_ok (f_load f) = true) ->
  (forall a b, is_ok (f_cost a b) = true) ->
  ftype = "cost" \/ ftype = "score" ->
  exists q,
    outcome (_classification_run fs self folder f_load f_cost ftype) = Ok q /\
    (q == 0)%Q.
Proof.
  intros Hlabels Hsame Hload Hcost Hftype.
  assert (Hpair : read_labels fs self folder = ([], Ok (test_files, train_answers))).
  { pose proof (read_labels_trace fs self folder) as Ht.
    destruct (read_labels fs self folder) as [l r]. cbn in Hlabels, Ht. now subst. }
  destruct (read_labels_lengths fs self folder _ _ _ Hpair) as [Hlen Hpos].
  destruct (run_total fs self f_load f_cost ftype folder _ _ Hpair Hload Hcost Hftype)
    as (M & js & q & _ & _ & Hjs_len & Hjs & Hrate & Hrun).
  exists q. split; [now rewrite Hrun |].
  assert (Hall : correct_rows train_answers js (List.length test_files)
                 = seq 0 (List.length test_files)).
  { unfold correct_rows. apply filter_all. intros i Hi. apply in_seq in Hi.
    destruct (rows_judged train_answers js i) as [ok Hok]; [congruence | exact Hjs | lia |].
    rewrite Hok. apply judged_correct_spec in Hok.
    destruct Hok as (a & p & label & Ha & _ & Hl & ->).
    rewrite Forall_forall in Hsame.
    rewrite (Hsame a (nth_error_In _ _ Ha)).
    rewrite (Hsame label (sorted_In _ _ (nth_error_In _ _ Hl))).
    now rewrite String.eqb_refl. }
  rewrite Hall, length_seq in Hrate. unfold error_rate in Hrate.
  destruct (List.length test_files =? 0); [discriminate |]. injection Hrate as <-.
  rewrite Z.sub_diag. unfold Qdiv. now rewrite !Qmult_0_l.
Qed.

End RunProperties.

Section LabelFile.
Variable fs : FileSystem.
Variable self : t.

(** X8.  What the label stage makes of a file that is there, by the tokens
    of its lines.  No line, or a line of fewer than two tokens (a blank one):
    a [ValueError], outside the [try].  Two tokens or more on every line and
    exactly two on one: the first two tokens of every line are taken, any
    further token silently dropped.  More than two on every line: a
    [ValueError]. *)
Theorem label_file_by_token_count (folder : string) (lines : list string) :
  path_exists fs (run_dir self folder) = true ->
  path_isfile fs (labels_path self folder) = true ->
  readlines fs (labels_path self folder) = Ok lines ->
  ((lines = [] \/ Exists (fun line => List.length (tokens line) < 2) lines) ->
   exists msg, read_labels fs self folder = ([], Raise (ValueError msg))) /\
  (Forall (fun line => 2 <= List.length (tokens line)) lines ->
   Exists (fun line => List.length (tokens line) = 2) lines ->
   read_labels fs self folder
   = ([], Ok (map (fun line => nth 0 (tokens line) EmptyString) lines,
              map (fun line => nth 1 (tokens line) EmptyString) lines))) /\
  (lines <> [] -> Forall (fun line => 2 < List.length (tokens line)) lines ->
   exists msg, read_labels fs self folder = ([], Raise (ValueError msg))).
Proof.
  intros Hdir Hfile Hread.
  assert (Hrun : read_labels fs self folder
                 = ([], unpack2 (zip_star (map tokens lines)))).
  { unfold read_labels. rewrite Hdir, Hfile, Hread. reflexivity. }
  rewrite Hrun.
  destruct (unpack2_by_shortest (map tokens lines)) as (Hshort & Htwo & Hlong).
  split; [| split].
  - intros Hbad. destruct Hshort as [msg Hmsg]; [| exists msg; now rewrite Hmsg].
    destruct Hbad as [-> | Hex]; [cbn; lia |].
    apply Exists_exists in Hex. destruct Hex as (line & Hin & Hlt).
    pose proof (min_length_le (map tokens lines) (tokens line) (in_map _ _ _ Hin)). lia.
  - intros Hall Hex. rewrite Htwo; [now rewrite !map_map |].
    apply Exists_exists in Hex. destruct Hex as (line & Hin & Heq).
    pose proof (min_length_le (map tokens lines) (tokens line) (in_map _ _ _ Hin)) as Hle.
    destruct (min_length_attained (map tokens lines)) as (r & Hr & Hmin).
    { destruct lines; [contradiction | discriminate]. }
    apply in_map_iff in Hr. destruct Hr as (line' & <- & Hin').
    rewrite Forall_forall in Hall. specialize (Hall line' Hin'). lia.
  - intros Hne Hall. destruct Hlong as [msg Hmsg]; [| exists msg; now rewrite Hmsg].
    destruct (min_length_attained (map tokens lines)) as (r & Hr & Hmin).
    { destruct lines; [congruence | discriminate]. }
    apply in_map_iff in Hr. destruct Hr as (line' & <- & Hin').
    rewrite Forall_forall in Hall. specialize (Hall line' Hin'). lia.
Qed.

End LabelFile.

Section RunPropertiesExamples.
Import Fixtures MoreFixtures.

Lemma failure_escapes_early_or_wrapped_witness :
  (outcome (read_labels empty_disk config "run01")
   = Raise (ValueError "The folder run01 does not exist in the runs directory.") /\
   trace (_classification_run empty_disk config "run01" by_name crossed "cost") = [])
  \/
  (exists test_files train_answers cause,
      outcome (read_labels empty_disk config "run01") = Ok (test_files, train_answers) /\
      outcome (attempt config by_name crossed "cost" test_files train_answers)
      = Raise cause /\
      ValueError "The folder run01 does not exist in the runs directory."
      = RuntimeError ("Error during classification run: " ++ str_exn cause) cause).
Proof.
  apply (failure_escapes_early_or_wrapped empty_disk config by_name crossed "cost" "run01").
  reflexivity.
Defined.

Lemma returned_rate_is_a_percentage_witness :
  (0 <= 200 # 2 /\ 200 # 2 <= 100)%Q /\
  exists n c,
    0 < n /\ c <= n /\
    (200 # 2)%Q = (inject_Z (Z.of_nat n - Z.of_nat c) / inject_Z (Z.of_nat n) * 100)%Q.
Proof.
  apply (returned_rate_is_a_percentage (disk unsorted_lines) config by_name crossed
           "cost" "run01").
  reflexivity.
Defined.

Lemma returned_run_loaded_every_entry_witness :
  exists test_files train_answers,
    outcome (read_labels (disk unsorted_lines) config "run01")
    = Ok (test_files, train_answers) /\
    loads (trace (_classification_run (disk unsorted_lines) config "run01"
                    by_name crossed "cost"))
    = map (fun f => path_join (all_runs_dir config) f) (sorted test_files)
      ++ map (fun f => path_join (all_runs_dir config) f) (sorted train_answers) /\
    List.length (loads (trace (_classification_run (disk unsorted_lines) config "run01"
                                 by_name crossed "cost")))
    = 2 * List.length test_files.
Proof.
  apply (returned_run_loaded_every_entry (disk unsorted_lines) config by_name crossed
           "cost" "run01" (200 # 2)%Q).
  reflexivity.
Defined.

Lemma run_returns_when_parts_do_witness :
  exists q,
    outcome (_classification_run (disk unsorted_lines) config "run01"
               by_name crossed "score") = Ok q.
Proof.
  apply (run_returns_when_parts_do (disk unsorted_lines) config by_name crossed
           "score" "run01" ["b"; "a"] ["x"; "y"]).
  - reflexivity.
  - intros f. reflexivity.
  - intros a b. reflexivity.
  - right. reflexivity.
Defined.

Lemma run_stops_at_first_failed_load_witness :
  loads (trace (_classification_run (disk unsorted_lines) config "run01"
                  all_but_b crossed "cost"))
  = map (fun g => path_join (all_runs_dir config) g) (["a"] ++ ["b"]) /\
  outcome (_classification_run (disk unsorted_lines) config "run01"
             all_but_b crossed "cost")
  = Raise (RuntimeError
             ("Error during classification run: " ++ str_exn (FileNotFoundError "/r/b"))
             (FileNotFoundError "/r/b")).
Proof.
  apply (run_stops_at_first_failed_load (disk unsorted_lines) config all_but_b crossed
           "cost" "run01" ["b"; "a"] ["x"; "y"] ["a"] ["x"; "y"] "b"
           (FileNotFoundError "/r/b")).
  - reflexivity.
  - reflexivity.
  - intros g [<- | []]. reflexivity.
  - reflexivity.
Defined.

Lemma bad_ftype_fails_after_loading_witness :
  loads (trace (_classification_run (disk unsorted_lines) config "run01"
                  by_name crossed "distance"))
  = map (fun f => path_join (all_runs_dir config) f) (sorted ["b"; "a"])
    ++ map (fun f => path_join (all_runs_dir config) f) (sorted ["x"; "y"]) /\
  outcome (_classification_run (disk unsorted_lines) config "run01"
             by_name crossed "distance")
  = Raise (RuntimeError
             "Error during classification run: ftype must be 'cost' or 'score'"
             (ValueError "ftype must be 'cost' or 'score'")).
Proof.
  apply (bad_ftype_fails_after_loading (disk unsorted_lines) config by_name crossed
           "distance" "run01" ["b"; "a"] ["x"; "y"]).
  - reflexivity.
  - intros f. reflexivity.
  - intros a b. reflexivity.
  - discriminate.
  - discriminate.
Defined.

Lemma one_answer_is_never_wrong_witness :
  exists q,
    outcome (_classification_run (disk same_answer_lines) config "run01"
               by_name crossed "cost") = Ok q /\
    (q == 0)%Q.
Proof.
  apply (one_answer_is_never_wrong (disk same_answer_lines) config by_name crossed
           "cost" "run01" ["q1"; "q2"; "q3"] ["c"; "c"; "c"] "c").
  - reflexivity.
  - repeat constructor.
  - intros f. reflexivity.
  - intros a b. reflexivity.
  - left. reflexivity.
Defined.

Lemma label_file_by_token_count_witness :
  read_labels (disk long_lines) config "run01" = ([], Ok (["b"; "a"], ["x"; "y"])).
Proof.
  refine (proj1 (proj2 (label_file_by_token_count (disk long_lines) config "run01"
                          long_lines eq_refl eq_refl eq_refl)) _ _).
  - repeat constructor.
  - apply Exists_cons_tl, Exists_cons_hd. reflexivity.
Defined.

End RunPropertiesExamples.

(** ** More on the distance *)

Section DistanceProperties.
Local Open Scope R_scope.

Lemma euclidean_nonneg (a b : point) : 0 <= euclidean a b.
Proof. unfold euclidean. apply sqrt_pos. Qed.

Lemma euclidean_zero (a b : point) : euclidean a b = 0 <-> a = b.
Proof.
  unfold euclidean. split.
  - destruct a as [ax ay], b as [bx by_]. cbn [fst snd]. intros Hz.
    pose proof (Rle_0_sqr (ax - bx)) as Hx. pose proof (Rle_0_sqr (ay - by_)) as Hy.
    unfold Rsqr in Hx, Hy. apply sqrt_eq_0 in Hz; [| lra].
    assert (Hx0 : (ax - bx) * (ax - bx) = 0) by lra.
    assert (Hy0 : (ay - by_) * (ay - by_) = 0) by lra.
    apply Rmult_integral in Hx0, Hy0. f_equal; lra.
  - intros ->. replace (_ + _) with 0 by ring. apply sqrt_0.
Qed.

(** The scan of [least]: one of the items, and none is smaller. *)
Lemma fold_Rmin_spec (xs : list R) :
  forall x, (fold_left Rmin xs x = x \/ In (fold_left Rmin xs x) xs) /\
            fold_left Rmin xs x <= x /\
            forall y, In y xs -> fold_left Rmin xs x <= y.
Proof.
  induction xs as [| z zs IH]; intros x; cbn [fold_left].
  - repeat split; [now left | lra | intros y []].
  - destruct (IH (Rmin x z)) as (Hin & Hle & Hall).
    pose proof (Rmin_l x z). pose proof (Rmin_r x z). repeat split.
    + destruct Hin as [Heq | Hin]; [| right; now right].
      rewrite Heq. unfold Rmin. destruct (Rle_dec x z); [now left | right; now left].
    + lra.
    + intros y [<- | Hy]; [lra | auto].
Qed.

Lemma least_spec (xs : list R) :
  xs <> [] -> In (least xs) xs /\ forall y, In y xs -> least xs <= y.
Proof.
  destruct xs as [| x xs]; [congruence |]. intros _. cbn [least].
  destruct (fold_Rmin_spec xs x) as (Hin & Hle & Hall). split.
  - destruct Hin as [-> | Hin]; [now left | now right].
  - intros y [<- | Hy]; auto.
Qed.

Lemma Rsum_nonneg (xs : list R) : Forall (fun x => 0 <= x) xs -> 0 <= Rsum xs.
Proof.
  induction 1 as [| x xs Hx _ IH]; cbn; [lra |]. fold (Rsum xs). lra.
Qed.

Lemma Rsum_zero (xs : list R) :
  Forall (fun x => 0 <= x) xs -> (Rsum xs = 0 <-> Forall (fun x => x = 0) xs).
Proof.
  induction 1 as [| x xs Hx Hxs IH]; cbn.
  - split; [constructor | reflexivity].
  - fold (Rsum xs). pose proof (Rsum_nonneg xs Hxs). split.
    + intros Hz. constructor; [lra | apply IH; lra].
    + intros Hall. inversion Hall as [| ? ? H0 Hrest]; subst.
      apply IH in Hrest. lra.
Qed.

Lemma Rmean_nonneg (xs : list R) :
  xs <> [] -> Forall (fun x => 0 <= x) xs -> 0 <= Rmean xs.
Proof.
  intros Hne Hall. unfold Rmean. apply Rsum_nonneg in Hall.
  assert (0 < INR (List.length xs)).
  { apply lt_0_INR. destruct xs; [congruence | cbn; lia]. }
  apply Rmult_le_pos; [exact Hall |]. left. now apply Rinv_0_lt_compat.
Qed.

Lemma Rmean_zero (xs : list R) :
  xs <> [] -> Forall (fun x => 0 <= x) xs ->
  (Rmean xs = 0 <-> Forall (fun x => x = 0) xs).
Proof.
  intros Hne Hall. rewrite <- (Rsum_zero xs Hall). unfold Rmean.
  assert (Hn : 0 < INR (List.length xs)).
  { apply lt_0_INR. destruct xs; [congruence | cbn; lia]. }
  split.
  - intros Hz. apply Rmult_integral in Hz. destruct Hz as [Hz | Hz]; [exact Hz |].
    apply Rinv_0_lt_compat in Hn. lra.
  - intros ->. unfold Rdiv. ring.
Qed.

(** The least distance from a point to a set that is not empty: not
    negative, and 0 exactly when the point is in the set. *)
Lemma nearest_nonneg (a : point) (XB : list point) :
  XB <> [] -> 0 <= least (map (fun b => euclidean a b) XB).
Proof.
  intros Hne. destruct (least_spec (map (fun b => euclidean a b) XB)) as [Hin _].
  { destruct XB; [congruence | discriminate]. }
  apply in_map_iff in Hin. destruct Hin as (b & <- & _). apply euclidean_nonneg.
Qed.

Lemma nearest_zero (a : point) (XB : list point) :
  XB <> [] -> (least (map (fun b => euclidean a b) XB) = 0 <-> In a XB).
Proof.
  intros Hne. destruct (least_spec (map (fun b => euclidean a b) XB)) as [Hin Hle].
  { destruct XB; [congruence | discriminate]. }
  split.
  - intros Hz. rewrite Hz in Hin. apply in_map_iff in Hin.
    destruct Hin as (b & Hb & Hin). apply euclidean_zero in Hb. now subst.
  - intros Ha. pose proof (nearest_nonneg a XB Hne).
    specialize (Hle (euclidean a a) (in_map (fun b => euclidean a b) _ _ Ha)).
    rewrite (proj2 (euclidean_zero a a) eq_refl) in Hle. lra.
Qed.

Lemma nearest_zero_sym (b : point) (XA : list point) :
  XA <> [] -> (least (map (fun a => euclidean a b) XA) = 0 <-> In b XA).
Proof.
  intros Hne. rewrite <- (nearest_zero b XA Hne).
  replace (map (fun a => euclidean a b) XA) with (map (fun a => euclidean b a) XA);
    [reflexivity |]. apply map_ext. intros a. apply euclidean_sym.
Qed.

Lemma directed_nonneg (XA XB : list point) :
  XB <> [] -> Forall (fun x => 0 <= x)
                     (map (fun a => least (map (fun b => euclidean a b) XB)) XA).
Proof.
  intros Hne. apply Forall_forall. intros x Hx. apply in_map_iff in Hx.
  destruct Hx as (a & <- & _). now apply nearest_nonneg.
Qed.

Lemma directed_nonneg_sym (XA XB : list point) :
  XA <> [] -> Forall (fun x => 0 <= x)
                     (map (fun b => least (map (fun a => euclidean a b) XA)) XB).
Proof.
  intros Hne. apply Forall_forall. intros x Hx. apply in_map_iff in Hx.
  destruct Hx as (b & <- & _).
  replace (map (fun a => euclidean a b) XA) with (map (fun a => euclidean b a) XA);
    [now apply nearest_nonneg |]. apply map_ext. intros a. apply euclidean_sym.
Qed.

Lemma py_max_zero (x y : R) : 0 <= x -> 0 <= y -> (py_max x y = 0 <-> x = 0 /\ y = 0).
Proof. intros Hx Hy. unfold py_max. destruct (Rlt_dec x y); lra. Qed.

Lemma py_max_nonneg (x y : R) : 0 <= x -> 0 <= y -> 0 <= py_max x y.
Proof. intros Hx Hy. unfold py_max. destruct (Rlt_dec x y); lra. Qed.

(** X9.  The distance between two point sets that are not empty is defined
    and not negative. *)
Theorem distance_nonnegative (itemA itemB : list point) :
  itemA <> [] -> itemB <> [] ->
  exists d, _modified_hausdorff_distance itemA itemB = Ok d /\ 0 <= d.
Proof.
  intros HA HB. rewrite (distance_nonempty itemA itemB HA HB). eexists.
  split; [reflexivity |]. apply py_max_nonneg; apply Rmean_nonneg.
  - destruct itemA; [congruence | discriminate].
  - now apply directed_nonneg.
  - destruct itemB; [congruence | discriminate].
  - now apply directed_nonneg_sym.
Qed.

(** X10.  The distance between two point sets that are not empty is 0
    exactly when they hold the same points: every point of each is a point of
    the other (in any order, any number of times).  So it is 0 from a set to
    itself, and on two images that differ it is not. *)
Theorem distance_zero_iff_same_points (itemA itemB : list point) :
  itemA <> [] -> itemB <> [] ->
  (_modified_hausdorff_distance itemA itemB = Ok 0
   <-> (forall a, In a itemA -> In a itemB) /\ (forall b, In b itemB -> In b itemA)).
Proof.
  intros HA HB. rewrite (distance_nonempty itemA itemB HA HB).
  assert (HA' : map (fun a => least (map (fun b => euclidean a b) itemB)) itemA <> [])
    by (destruct itemA; [congruence | discriminate]).
  assert (HB' : map (fun b => least (map (fun a => euclidean a b) itemA)) itemB <> [])
    by (destruct itemB; [congruence | discriminate]).
  pose proof (directed_nonneg itemA itemB HB) as NA.
  pose proof (directed_nonneg_sym itemA itemB HA) as NB.
  assert (Hd : forall x, Ok x = Ok 0 <-> x = 0).
  { intros x. split; [intros Heq; now injection Heq | now intros ->]. }
  rewrite Hd, (py_max_zero _ _ (Rmean_nonneg _ HA' NA) (Rmean_nonneg _ HB' NB)).
  rewrite (Rmean_zero _ HA' NA), (Rmean_zero _ HB' NB), !Forall_forall.
  split; intros [H1 H2]; split.
  - intros a Ha. apply (nearest_zero a itemB HB). apply H1.
    apply (in_map (fun a => least (map (fun b => euclidean a b) itemB))). exact Ha.
  - intros b Hb. apply (nearest_zero_sym b itemA HA). apply H2.
    apply (in_map (fun b => least (map (fun a => euclidean a b) itemA))). exact Hb.
  - intros x Hx. apply in_map_iff in Hx. destruct Hx as (a & <- & Ha).
    apply (nearest_zero a itemB HB). auto.
  - intros x Hx. apply in_map_iff in Hx. destruct Hx as (b & <- & Hb).
    apply (nearest_zero_sym b itemA HA). auto.
Qed.

Lemma distance_nonnegative_witness :
  exists d, _modified_hausdorff_distance [(0, 0)] [(1, 0); (0, 2)] = Ok d /\ 0 <= d.
Proof. apply (distance_nonnegative [(0, 0)] [(1, 0); (0, 2)]); discriminate. Defined.

Lemma distance_zero_iff_same_points_witness :
  _modified_hausdorff_distance [(0, 0); (1, 2)] [(1, 2); (0, 0); (1, 2)] = Ok 0
  <-> (forall a, In a [(0, 0); (1, 2)] -> In a [(1, 2); (0, 0); (1, 2)]) /\
      (forall b, In b [(1, 2); (0, 0); (1, 2)] -> In b [(0, 0); (1, 2)]).
Proof.
  apply (distance_zero_iff_same_points [(0, 0); (1, 2)] [(1, 2); (0, 0); (1, 2)]);
    discriminate.
Defined.

End DistanceProperties.

(** ** More on the point sets *)

Section ExtractorProperties.
Local Open Scope R_scope.

Lemma nonzero_row_length (row : list Z) :
  forall r c,
    List.length (nonzero_row r c (map (fun v => negb (as_bool v)) row))
    = List.length (filter (fun v => (v =? 0)%Z) row).
Proof.
  induction row as [| v row IH]; intros r c; cbn [map nonzero_row filter]; [reflexivity |].
  unfold as_bool at 1. destruct (v =? 0)%Z; cbn [negb List.length]; now rewrite IH.
Qed.

Lemma nonzero_from_length (image : list (list Z)) :
  forall r, List.length (nonzero_from r (bool_array image)) = count_black image.
Proof.
  unfold count_black. induction image as [| row image IH]; intros r; [reflexivity |].
  change (bool_array (row :: image))
    with (map (fun v => negb (as_bool v)) row :: bool_array image).
  cbn [nonzero_from List.concat]. rewrite length_app, filter_app, length_app.
  now rewrite nonzero_row_length, IH.
Qed.








(** X11.  [_load_image_points] returns one point per black pixel (pixel of
    value 0) of the image, whatever the other values are. *)
Theorem one_point_per_black_pixel (fs : FileSystem) (filename : string)
    (image : list (list Z)) :
  imread fs filename = Ok image ->
  exists points,
    _load_image_points fs filename = Ok points /\
    List.length points = count_black image.
Proof.
  intros Hread. unfold _load_image_points. rewrite Hread. eexists.
  split; [reflexivity |]. unfold centred. rewrite length_map.
  apply nonzero_from_length.
Qed.


(** X13.  An image with no black pixel cannot be compared with one that has
    some: the extractor returns for both, and the distance between the two
    point sets raises a [ValueError], whichever comes first. *)
Theorem blank_image_cannot_be_compared (fs : FileSystem) (blank_file shape_file : string)
    (blank image : list (list Z)) :
  imread fs blank_file = Ok blank -> has_foreground blank = false ->
  imread fs shape_file = Ok image -> has_foreground image = true ->
  exists itemA itemB msg,
    _load_image_points fs blank_file = Ok itemA /\
    _load_image_points fs shape_file = Ok itemB /\
    _modified_hausdorff_distance itemA itemB = Raise (ValueError msg) /\
    _modified_hausdorff_distance itemB itemA = Raise (ValueError msg).
Proof.
  intros Hblank Hnone Himage Hsome. unfold _load_image_points.
  rewrite Hblank, Himage. apply nonzero_foreground in Hnone. rewrite Hnone.
  do 3 eexists. split; [reflexivity |]. split; [reflexivity |].
  split; apply distance_empty; [now left | now right].
Qed.

End ExtractorProperties.

Section ExtractorExamples.
Import Fixtures.

Lemma one_point_per_black_pixel_witness :
  exists points,
    _load_image_points (image_disk diagonal) "item01.png" = Ok points /\
    List.length points = count_black diagonal.
Proof.
  apply (one_point_per_black_pixel (image_disk diagonal) "item01.png" diagonal).
  reflexivity.
Defined.


Lemma blank_image_cannot_be_compared_witness :
  exists itemA itemB msg,
    _load_image_points
      {| path_exists := fun _ => true; path_isfile := fun _ => true;
         readlines := fun _ => Ok [];
         imread := fun p => if (p =? "blank.png")%string then Ok white else Ok diagonal |}
      "blank.png" = Ok itemA /\
    _load_image_points
      {| path_exists := fun _ => true; path_isfile := fun _ => true;
         readlines := fun _ => Ok [];
         imread := fun p => if (p =? "blank.png")%string then Ok white else Ok diagonal |}
      "shape.png" = Ok itemB /\
    _modified_hausdorff_distance itemA itemB = Raise (ValueError msg) /\
    _modified_hausdorff_distance itemB itemA = Raise (ValueError msg).
Proof.
  apply (blank_image_cannot_be_compared _ "blank.png" "shape.png" white diagonal);
    reflexivity.
Defined.

End ExtractorExamples.

(** ** The constructor, the sort and the experiment's loads *)

Section Constructor.
Variable fs : FileSystem.

(** X14.  [__init__] fails only for a [script_dir] that is given and does
    not exist, with a [ValueError] that names it.  When it returns, the runs
    directory is the one beside the script file, joined from [file_dir], also
    when another [script_dir] was given and stored. *)
Theorem init_outcome (file_dir : string) (n : nat) (given : option string)
    (runs labels : string) :
  (forall self,
      __init__ fs file_dir n given runs labels = Ok self ->
      nrun self = n /\ label_filename self = labels /\
      all_runs_dir self = path_join file_dir runs /\
      script_dir self = match given with Some d => d | None => file_dir end /\
      forall d, given = Some d -> path_exists fs d = true) /\
  (forall e,
      __init__ fs file_dir n given runs labels = Raise e ->
      exists d, given = Some d /\ path_exists fs d = false /\
                e = ValueError ("Provided script directory '" ++ d ++ "' does not exist.")).
Proof.
  unfold __init__. destruct given as [d |].
  - destruct (path_exists fs d) eqn:E; cbn [negb]; split.
    + intros self Heq. injection Heq as <-. cbn. repeat split.
      intros d' Hd. injection Hd as <-. exact E.
    + discriminate.
    + discriminate.
    + intros e Heq. injection Heq as <-. exists d. repeat split. exact E.
  - split; [| discriminate]. intros self Heq. injection Heq as <-. cbn.
    repeat split. discriminate.
Qed.

End Constructor.

Section Sorting.

Lemma ascending_one (x : string) : ascending [x].
Proof. intros [| [| i]] a b Ha Hb; discriminate. Qed.

Lemma ascending_cons (x y : string) (ys : list string) :
  String.leb x y = true -> ascending (y :: ys) -> ascending (x :: y :: ys).
Proof.
  intros Hxy Hys [| i] a b Ha Hb.
  - cbn in Ha, Hb. injection Ha as <-. injection Hb as <-. exact Hxy.
  - cbn in Ha. cbn [nth_error] in Hb. eapply Hys; eauto.
Qed.

Lemma ascending_tail (x : string) (xs : list string) : ascending (x :: xs) -> ascending xs.
Proof. intros Hxs i a b Ha Hb. apply (Hxs (S i) a b); assumption. Qed.

Lemma insert_sorted_ascending (x : string) (xs : list string) :
  ascending xs -> ascending (insert_sorted x xs).
Proof.
  induction xs as [| y ys IH]; intros Hasc; cbn [insert_sorted].
  - apply ascending_one.
  - destruct (String.leb x y) eqn:Hxy.
    + now apply ascending_cons.
    + assert (Hyx : String.leb y x = true).
      { destruct (String.leb_total x y) as [E | E]; congruence. }
      specialize (IH (ascending_tail _ _ Hasc)).
      destruct ys as [| z zs]; cbn [insert_sorted] in *.
      * apply ascending_cons; [exact Hyx | apply ascending_one].
      * destruct (String.leb x z).
        -- now apply ascending_cons.
        -- apply ascending_cons; [| exact IH]. now apply (Hasc 0 y z).
Qed.

Lemma insert_sorted_count (x y : string) (xs : list string) :
  count_occ string_dec (insert_sorted x xs) y = count_occ string_dec (x :: xs) y.
Proof.
  induction xs as [| z zs IH]; cbn [insert_sorted]; [reflexivity |].
  destruct (String.leb x z); [reflexivity |].
  cbn [count_occ] in *. destruct (string_dec z y), (string_dec x y); lia.
Qed.

(** X15.  [sorted], as lines 136, 140 and 160 use it, rearranges its list
    (every name as often as before) into ascending order of the characters'
    codes; so row [i] of the matrix is the query that is [i]-th in that
    order, whatever the order of the label file. *)
Theorem sorted_is_an_ascending_rearrangement (xs : list string) :
  ascending (sorted xs) /\
  (forall x, count_occ string_dec (sorted xs) x = count_occ string_dec xs x) /\
  List.length (sorted xs) = List.length xs.
Proof.
  split; [| split; [| apply sorted_length]].
  - induction xs as [| x xs IH].
    + intros [| i] a b Ha Hb; discriminate.
    + change (sorted (x :: xs)) with (insert_sorted x (sorted xs)).
      now apply insert_sorted_ascending.
  - intros y. induction xs as [| x xs IH]; [reflexivity |].
    change (sorted (x :: xs)) with (insert_sorted x (sorted xs)).
    rewrite insert_sorted_count. cbn [count_occ]. rewrite IH. reflexivity.
Qed.

End Sorting.

Section ExperimentLoads.
Variable fs : FileSystem.
Variable self : t.

Lemma loads_of_pass (run : nat) :
  loads (trace (one_run fs self run) ++ [report_line run (outcome (one_run fs self run))])
  = loads (trace (one_run fs self run)).
Proof.
  unfold loads. rewrite flat_map_app. cbn [flat_map].
  destruct (outcome (one_run fs self run)); cbn; now rewrite app_nil_r.
Qed.

(** X16.  The images [run_experiments] loads are those of run 1, then those
    of run 2, and so on to run [nrun]: each run loads for itself, a run that
    fails keeps what it had loaded, and the loop adds no load of its own. *)
Theorem experiment_loads_run_by_run :
  loads (trace (run_experiments fs self))
  = flat_map (fun run => loads (trace (one_run fs self run))) (seq 1 (nrun self)).
Proof.
  unfold run_experiments. rewrite loop_spec. unfold emit. cbn [bind app].
  unfold trace at 1. cbn [fst]. unfold loads at 1. cbn [flat_map app].
  fold (loads). rewrite flat_map_app. cbn [flat_map app]. rewrite app_nil_r.
  induction (seq 1 (nrun self)) as [| run runs IH]; [reflexivity |].
  cbn [flat_map]. rewrite flat_map_app. fold (loads). rewrite IH.
  f_equal. apply loads_of_pass.
Qed.

End ExperimentLoads.

Section JudgementExamples.

(** The file [a y / b x] with the columns [1, 0] chosen: row 0 is query
    [a], column 1 of the sorted answers is [y], the label recorded for [a]. *)
Lemma judged_correct_sorted_file_witness :
  true = true <->
  exists label, nth_error (sorted ["y"; "x"]) 1 = Some label /\
                recorded_label ["a"; "b"] ["y"; "x"] "a" = Some label.
Proof.
  apply (judged_correct_sorted_file ["a"; "b"] ["y"; "x"] [1; 0] 0 1 "a" true);
    try reflexivity.
  constructor; [intros [E | []]; discriminate |].
  constructor; [intros [] | constructor].
Defined.

End JudgementExamples.
